(** * better-lookup: a caching DNS lookup and its throttle

    A shallow embedding of [src/index.ts] (the override table loader
    [loadHostsConfig], the resolution cache [Cache] and [lookup]) and of
    [src/useThrottle.ts] ([useThrottle], [createThrottleTask], [throttle]),
    followed by the properties proved of them.

    Conventions of the embedding.
    - JS numbers that hold integers (milliseconds, seconds, TTLs,
      intervals) are [Z].
    - JS strings are [string]; a character stands for one code unit below
      256, and the white space class of [trim] and of the regular expression
      [\s] is its part in that range (9 to 13, 32 and 160).
    - The objects [Cache], [HostsConfig] and [useThrottle.tasks] are used as
      maps and are [gmap]s; keys are assumed not to be names of
      [Object.prototype] members.
    - [net.isIP], the upstream resolver and the file system are not part of
      the repository: [isIP] is a variable of the development, resolver and
      file answers are inputs of the transitions.
    - An error object is its fields and an identity; the objects the
      program makes and the ones it catches from the resolver are numbered
      in the order in which they appear.
    - An [async] function is cut at its [await]s, one function per
      continuation, and an event machine interleaves them. A continuation
      and the promise reactions that follow it within the same turn of the
      event loop are one step of the machine.
    - [lookup] is taken in promise mode, with [family] and [all] already
      read from its arguments. The call [hostsThrottle(loadHostsConfig)]
      made by a work is answered by an event; the timers (the periodic
      reload of [HostsConfig] and the sweep of idle tasks) are not events of
      the machine, the sweep is the function [Throttle.gc].
    - The local [result] of a work is the array [HostsConfig[hostname]]
      itself when there is one: it is read and extended through the table.
      A value handed to the throttle is the list of its elements at that
      time. *)

From Stdlib Require Import ZArith List Bool Lia Ascii String.
From stdpp Require Import base option list gmap strings pretty.

Local Open Scope string_scope.
Local Open Scope list_scope.
Local Open Scope Z_scope.

(** ** Data model *)

(** [family: 4 | 6] of an address record. *)
Inductive Family := IPV4 | IPV6.

(** The [family] argument of [lookup]: [0 | 4 | 6]. *)
Inductive FamilyArg := Unspec | Only (f : Family).

#[global] Instance Family_eq_dec : EqDecision Family.
Proof. solve_decision. Defined.
#[global] Instance FamilyArg_eq_dec : EqDecision FamilyArg.
Proof. solve_decision. Defined.

(** [type AddressInfo = { address: string, family: 4 | 6 }] *)
Record AddressInfo := { ai_address : string; ai_family : Family }.

(** [type AddressInfoDetail = AddressInfo & { expireAt: number }] *)
Record AddressInfoDetail :=
  { address : string; family : Family; expireAt : Z }.

#[global] Instance AddressInfo_eq_dec : EqDecision AddressInfo.
Proof. solve_decision. Defined.
#[global] Instance AddressInfoDetail_eq_dec : EqDecision AddressInfoDetail.
Proof. solve_decision. Defined.

(** [type CacheData = Record<string, AddressInfoDetail[]>] *)
Abbreviation CacheData := (gmap string (list AddressInfoDetail)).

Definition MIN_TTL_SEC : Z := 10.
Definition DEFAULT_TTL : Z := MIN_TTL_SEC * 1000.

(** [x | 0]: conversion to a signed 32-bit integer. *)
Definition toInt32 (z : Z) : Z := (z + 2 ^ 31) mod 2 ^ 32 - 2 ^ 31.

(** [timestamp()], as a function of [Date.now()]:
    [(Date.now() / 1000) | 0]. *)
Definition timestamp (now_ms : Z) : Z := toInt32 (Z.quot now_ms 1000).

(** ** JS string operations used by the loader *)

Module JS.

Definition code (c : ascii) : N := N_of_ascii c.

(** White space of [String.prototype.trim] and of [\s], below 256. *)
Definition is_space (c : ascii) : bool :=
  let n := code c in
  ((9 <=? n) && (n <=? 13) || (n =? 32) || (n =? 160))%N.

Definition is_lf (c : ascii) : bool := (code c =? 10)%N.
Definition is_cr (c : ascii) : bool := (code c =? 13)%N.

(** Puts [c] in front of the first element of a list of strings. *)
Definition cons_head (c : ascii) (l : list string) : list string :=
  match l with
  | [] => [String c EmptyString]
  | x :: xs => String c x :: xs
  end.

(** [s.split(/\r\n|\n/)] *)
Fixpoint split_lines (s : string) : list string :=
  match s with
  | EmptyString => [EmptyString]
  | String c r =>
      if is_lf c then EmptyString :: split_lines r
      else
        match r with
        | String d r' =>
            if is_cr c && is_lf d then EmptyString :: split_lines r'
            else cons_head c (split_lines r)
        | EmptyString => [String c EmptyString]
        end
  end.

Fixpoint trimStart (s : string) : string :=
  match s with
  | EmptyString => EmptyString
  | String c r => if is_space c then trimStart r else s
  end.

Fixpoint trimEnd (s : string) : string :=
  match s with
  | EmptyString => EmptyString
  | String c r =>
      match trimEnd r with
      | EmptyString => if is_space c then EmptyString else String c EmptyString
      | r' => String c r'
      end
  end.

(** [s.trim()] *)
Definition trim (s : string) : string := trimEnd (trimStart s).

(** [s.startsWith(p)] *)
Definition startsWith (p s : string) : bool := String.prefix p s.

(** [s.split(/\s+/)]; [in_run] says that the previous character belonged
    to a separator. *)
Fixpoint split_ws_from (in_run : bool) (s : string) : list string :=
  match s with
  | EmptyString => [EmptyString]
  | String c r =>
      if is_space c then
        if in_run then split_ws_from true r
        else EmptyString :: split_ws_from true r
      else cons_head c (split_ws_from false r)
  end.

Definition split_ws (s : string) : list string := split_ws_from false s.

End JS.

(** ** The override table: [loadHostsConfig] *)

Section Hosts.

(** [net.isIP]: [0], [4] or [6]. *)
Variable isIP : string -> option Family.

(** [(configs[hostname] || (configs[hostname] = [])).push(r)] *)
Definition push_record (configs : CacheData) (hostname : string)
    (r : AddressInfoDetail) : CacheData :=
  match configs !! hostname with
  | Some l => <[hostname := l ++ [r]]> configs
  | None => <[hostname := [r]]> configs
  end.

(** The [for] loop over [segments[1..]] of one line. *)
Fixpoint add_aliases (addr : string) (exp : Z) (aliases : list string)
    (configs : CacheData) : CacheData :=
  match aliases with
  | [] => configs
  | hostname :: rest =>
      if JS.startsWith "#" hostname then configs (* break *)
      else
        match isIP addr with
        | None => add_aliases addr exp rest configs (* continue *)
        | Some fam =>
            add_aliases addr exp rest
              (push_record configs hostname
                 {| address := addr; family := fam; expireAt := exp |})
        end
  end.

(** The reducer: one line, already split in segments. *)
Definition add_line (exp : Z) (configs : CacheData)
    (segments : list string) : CacheData :=
  match segments with
  | [] => configs
  | addr :: aliases => add_aliases addr exp aliases configs
  end.

(** Lines of the file as lists of segments. *)
Definition hosts_lines (hostFile : string) : list (list string) :=
  map JS.split_ws
    (List.filter (fun line => negb (JS.startsWith "#" line))
       (map JS.trim (JS.split_lines hostFile))).

Definition parse_lines (exp : Z) (lines : list (list string)) : CacheData :=
  fold_left (add_line exp) lines ∅.

(** [loadHostsConfig], given the content read from the file and
    [Date.now()] after the read. *)
Definition loadHostsConfig (hostFile : string) (now_ms : Z) : CacheData :=
  let expireAt := timestamp now_ms + MIN_TTL_SEC in
  parse_lines expireAt (hosts_lines hostFile).

(** The first token of a line is an IP literal. *)
Definition valid_first (segments : list string) : bool :=
  match segments with
  | addr :: _ => match isIP addr with Some _ => true | None => false end
  | [] => false
  end.

(** Every record of a table expires at [exp] and holds a literal of its
    family. *)
Definition stamped_with (exp : Z) (configs : CacheData) : Prop :=
  ∀ h l r, configs !! h = Some l → In r l →
    expireAt r = exp ∧ isIP (address r) = Some (family r).

End Hosts.

(** ** The throttle: [useThrottle.ts] *)

(** Classes of the errors the code constructs itself. *)
Inductive ErrorClass := ErrorC | RangeErrorC | TypeErrorC.

Module Throttle.

Definition gcInterval : Z := 30000.

Section Task.

(** [RET], the type of thrown values, their truthiness ([if (error)]),
    and the type of the queued [{resolve, reject}] jobs. *)
Context {R E J : Type}.
Variable truthy : E -> bool.

(** [cache?: { value: any, error: any }]; [value: undefined] and
    [error: null] are [None]. *)
Record Cached := { value : option R; error : option E }.

(** How a promise returned by [throttle] settles; [Resolved None] is
    a promise resolved with [undefined]. *)
Inductive Outcome := Resolved (v : option R) | Rejected (e : E).

(** [type ThrottleTask]; [backgroundUpdate] is the variable captured by
    the closure [throttle] of the task. *)
Record ThrottleTask := {
  interval : Z;
  backgroundUpdate : bool;
  lastActive : Z;
  cache : option Cached;
  queue : list J
}.

Definition createThrottleTask (interval : Z) (backgroundUpdate : bool)
    : ThrottleTask :=
  {| interval := interval; backgroundUpdate := backgroundUpdate;
     lastActive := 0; cache := None; queue := [] |}.

(** [if (error) throw error; else return result], also the choice
    between [job.reject(error)] and [job.resolve(result)]. *)
Definition verdict (error : option E) (result : option R) : Outcome :=
  match error with
  | Some e => if truthy e then Rejected e else Resolved result
  | None => Resolved result
  end.

(** [if (this.cache.error) throw this.cache.error;
     else return this.cache.value] *)
Definition replay (c : Cached) : Outcome := verdict (error c) (value c).

(** What a call of [throttle] does before it returns its promise. *)
Inductive Entered :=
| Dispatched                 (* [handle] invoked, the caller awaits it *)
| DispatchedBg (o : Outcome) (* [handle] invoked in the background *)
| Served (o : Outcome)       (* answered from [this.cache] *)
| Enqueued.                  (* a job was added to [this.queue] *)

Definition invokes_handle (r : Entered) : bool :=
  match r with
  | Dispatched | DispatchedBg _ => true
  | Served _ | Enqueued => false
  end.

(** [throttle], up to its first suspension, at [Date.now() = now],
    for a [handle] whose call returns (a value or a promise, as every
    [async] function does); [job] is the job the call would enqueue.
    The [handle] that throws when it is called is [throttle_invoking]
    below. *)
Definition throttle (now : Z) (job : J) (t : ThrottleTask)
    : ThrottleTask * Entered :=
  if now - lastActive t >=? interval t then
    let t1 := {| interval := interval t;
                 backgroundUpdate := backgroundUpdate t;
                 lastActive := now; cache := cache t;
                 queue := queue t |} in
    match backgroundUpdate t, cache t with
    | true, Some c => (t1, DispatchedBg (replay c))
    | _, _ =>
        ({| interval := interval t;
            backgroundUpdate := backgroundUpdate t;
            lastActive := now; cache := None; queue := queue t |},
         Dispatched)
    end
  else
    match cache t with
    | Some c => (t, Served (replay c))
    | None =>
        ({| interval := interval t;
            backgroundUpdate := backgroundUpdate t;
            lastActive := lastActive t; cache := None;
            queue := queue t ++ [job] |},
         Enqueued)
    end.

(** What the call [handle(...args)] itself does: it returns, or it
    throws [e] before it returns. *)
Inductive Invoked := Returns | Throws (e : E).

(** [throttle] for any [handle]. In the background branch
    [handle(...args)] is evaluated inside the async function [throttle]
    and outside any [try], before [then] and [catch] are attached: when
    it throws, the promise of the call is rejected with the thrown
    value, whatever its truthiness, [lastActive] has been advanced and
    the cache is never updated by this run. In the foreground branch
    the call is inside [try]: a [handle] that throws is a [handle] that
    fails, and the leader goes on with [complete (inr e)]. *)
Definition throttle_invoking (h : Invoked) (now : Z) (job : J)
    (t : ThrottleTask) : ThrottleTask * Entered :=
  match h, throttle now job t with
  | Throws e, (t1, DispatchedBg _) => (t1, DispatchedBg (Rejected e))
  | _, r => r
  end.

Definition set_cache (c : Cached) (t : ThrottleTask) : ThrottleTask :=
  {| interval := interval t; backgroundUpdate := backgroundUpdate t;
     lastActive := lastActive t; cache := Some c; queue := queue t |}.

(** The record stored when [handle] settles with [r]. *)
Definition cached_of (r : R + E) : Cached :=
  match r with
  | inl v => {| value := Some v; error := None |}
  | inr e => {| value := None; error := Some e |}
  end.

(** The locals [error] and [result] of the leader after its
    [try]/[catch]; they are what the [setImmediate] callback captures. *)
Definition locals_of (r : R + E) : option E * option R :=
  match r with
  | inl v => (None, Some v)
  | inr e => (Some e, None)
  end.

(** Continuation of a foreground leader when [handle] settles with [r]:
    the task with its cache filled, the callback handed to
    [setImmediate], and the leader's own outcome. *)
Definition complete (r : R + E) (t : ThrottleTask)
    : ThrottleTask * (option E * option R) * Outcome :=
  let '(error, result) := locals_of r in
  (set_cache (cached_of r) t, (error, result), verdict error result).

(** The [then]/[catch] of a background run. *)
Definition complete_bg (r : R + E) (t : ThrottleTask) : ThrottleTask :=
  set_cache (cached_of r) t.

(** The [setImmediate] callback: every queued job is settled and
    deleted. *)
Definition drain (k : option E * option R) (t : ThrottleTask)
    : ThrottleTask * list (J * Outcome) :=
  ({| interval := interval t; backgroundUpdate := backgroundUpdate t;
      lastActive := lastActive t; cache := cache t; queue := [] |},
   map (fun job => (job, verdict (fst k) (snd k))) (queue t)).

(** Successive calls of [throttle] on one task, each with its
    [Date.now()] and its job. *)
Fixpoint enter_all (calls : list (Z * J)) (t : ThrottleTask)
    : ThrottleTask * list Entered :=
  match calls with
  | [] => (t, [])
  | (now, job) :: rest =>
      let '(t1, e) := throttle now job t in
      let '(t2, es) := enter_all rest t1 in
      (t2, e :: es)
  end.

(** [useThrottle.tasks] and [useThrottle.gcTimer] (set or not). *)
Record Registry := {
  gcTimer : bool;
  tasks : gmap string ThrottleTask
}.

(** What [useThrottle] returns or throws; [Func resource] is
    [task.func] of the task registered under [resource]. *)
Inductive Used :=
| Threw (c : ErrorClass) (message : string)
| Func (resource : string).

(** [useThrottle(resource, interval, backgroundUpdate)] *)
Definition useThrottle (resource : string) (interval : Z)
    (backgroundUpdate : bool) (reg : Registry) : Registry * Used :=
  if interval <? 1 then
    (reg,
     Threw RangeErrorC
       "The 'interval' time for throttle must not be smaller than 1")
  else
    let tasks1 :=
      match tasks reg !! resource with
      | Some _ => tasks reg
      | None =>
          <[resource := createThrottleTask interval backgroundUpdate]>
            (tasks reg)
      end in
    ({| gcTimer := true; tasks := tasks1 |}, Func resource).

(** The callback of [gcTimer], at [Date.now() = now]. *)
Definition gc (now : Z) (reg : Registry) : Registry :=
  {| gcTimer := gcTimer reg;
     tasks :=
       filter (fun kt =>
                 ¬ (now - lastActive kt.2
                    > Z.max (interval kt.2 + 5) gcInterval))
              (tasks reg) |}.

End Task.

Arguments Cached : clear implicits.
Arguments Outcome : clear implicits.
Arguments ThrottleTask : clear implicits.
Arguments Registry : clear implicits.
Arguments Entered : clear implicits.
Arguments Invoked : clear implicits.

End Throttle.

(** ** The resolver: [lookup] *)

(** Fields the code reads or writes on an error object. *)
Record ErrData := {
  e_class : ErrorClass;
  e_message : string;
  e_errno : option Z;
  e_code : option string;
  e_syscall : option string;
  e_hostname : option string
}.

(** An error object: its identity and its fields. Objects made by the
    program or received from the resolver are numbered as they appear. *)
Record JsError := { e_id : nat; e_data : ErrData }.

(** One element of the array [resolve4]/[resolve6] give with [ttl: true]. *)
Record DnsRecord := { rr_address : string; rr_ttl : Z }.

(** How an upstream query settles. *)
Definition DnsAnswer : Type := list DnsRecord + ErrData.

(** Calls that leave the resolver. *)
Inductive Query :=
| CallHostsThrottle            (* [hostsThrottle(loadHostsConfig)] *)
| Resolve4 (hostname : string) (* [dnsPromises.resolve4] *)
| Resolve6 (hostname : string) (* [dnsPromises.resolve6] *).

Definition family_eqb (f g : Family) : bool :=
  match f, g with
  | IPV4, IPV4 | IPV6, IPV6 => true
  | _, _ => false
  end.

(** [a => a.family === f] and [a => a.family !== f] *)
Definition has_family (f : Family) (a : AddressInfoDetail) : bool :=
  family_eqb (family a) f.
Definition not_family (f : Family) (a : AddressInfoDetail) : bool :=
  negb (family_eqb (family a) f).

(** [a => a.expireAt > now] *)
Definition live (now : Z) (a : AddressInfoDetail) : bool := expireAt a >? now.

(** [({ address, ttl }) => ({ address, family, expireAt:
      Math.max(ttl + now, MIN_TTL_SEC) })] *)
Definition stamp (f : Family) (now : Z) (r : DnsRecord) : AddressInfoDetail :=
  {| address := rr_address r; family := f;
     expireAt := Z.max (rr_ttl r + now) MIN_TTL_SEC |}.

(** The cache write of [updateV4]. *)
Definition cache_write_v4 (hostname : string) (v4 : list AddressInfoDetail)
    (Cache : CacheData) : CacheData :=
  match Cache !! hostname with
  | Some cacheSlot =>
      let cacheSlot := List.filter (not_family IPV4) cacheSlot in
      let cacheSlot := cacheSlot ++ v4 in
      <[hostname := cacheSlot]> Cache
  | None => <[hostname := v4]> Cache
  end.

(** The cache write after a successful [resolve6]. Its last statement is
    [cacheSlot = Cache[hostname]]: the local is assigned, not the cache. *)
Definition cache_write_v6 (hostname : string) (v6 : list AddressInfoDetail)
    (Cache : CacheData) : CacheData :=
  match Cache !! hostname with
  | Some cacheSlot0 =>
      let cacheSlot := List.filter (not_family IPV6) cacheSlot0 in
      let cacheSlot := cacheSlot ++ v6 in
      let cacheSlot := cacheSlot0 in
      Cache
  | None => <[hostname := v6]> Cache
  end.

(** [({ address, expireAt }) =>
      ({ address: `::ffff:${address}`, family: IPV6, expireAt })] *)
Definition mapped (a : AddressInfoDetail) : AddressInfoDetail :=
  {| address := "::ffff:" +:+ address a; family := IPV6;
     expireAt := expireAt a |}.

(** The statements after [updateV4] in the [catch] of [resolve6]. [None]
    is the [TypeError] of [cacheSlot.filter] on [undefined]. *)
Definition synthesize (hostname : string) (Cache : CacheData)
    : option CacheData :=
  match Cache !! hostname with
  | None => None
  | Some cacheSlot =>
      let v4 := List.filter (not_family IPV4) cacheSlot in
      let v6 := map mapped v4 in
      let cacheSlot := List.filter (not_family IPV6) cacheSlot in
      let cacheSlot := cacheSlot ++ v6 in
      Some (<[hostname := cacheSlot]> Cache)
  end.

(** The cache read at the start of [lookup]; [None] when [query] stays
    unset. *)
Definition cache_probe (hostname : string) (fam : FamilyArg) (now : Z)
    (Cache : CacheData) : option (list AddressInfoDetail) :=
  match Cache !! hostname with
  | None => None
  | Some slot =>
      let addresses := List.filter (live now) slot in
      let addresses :=
        match fam with
        | Unspec => addresses
        | Only f => List.filter (has_family f) addresses
        end in
      match addresses with
      | [] => None
      | _ => Some addresses
      end
  end.

(** The record is of the family asked for. *)
Definition wanted (fam : FamilyArg) (a : AddressInfoDetail) : bool :=
  match fam with
  | Unspec => true
  | Only f => has_family f a
  end.

(** The live records of an entry that are of the family asked for, in the
    order of the entry. *)
Definition usable (fam : FamilyArg) (now : Z) (slot : list AddressInfoDetail)
    : list AddressInfoDetail :=
  List.filter (wanted fam) (List.filter (live now) slot).

(** [({ address, family }) => ({ address, family })] *)
Definition project (a : AddressInfoDetail) : AddressInfo :=
  {| ai_address := address a; ai_family := family a |}.

(** The object thrown when both families failed. *)
Definition aggregated (hostname : string) : ErrData :=
  {| e_class := ErrorC;
     e_message := "queryA and queryAaaa ENODATA " +:+ hostname;
     e_errno := None; e_code := Some "ENODATA"; e_syscall := None;
     e_hostname := Some hostname |}.

Definition plain_error (c : ErrorClass) (message : string) : ErrData :=
  {| e_class := c; e_message := message; e_errno := None; e_code := None;
     e_syscall := None; e_hostname := None |}.

Definition family_digit (f : FamilyArg) : string :=
  match f with Unspec => "0" | Only IPV4 => "4" | Only IPV6 => "6" end.

(** [`dnsLookup:${hostname}:${family}:${all}`] *)
Definition tag_of (hostname : string) (fam : FamilyArg) (all : bool) : string :=
  "dnsLookup:" +:+ hostname +:+ ":" +:+ family_digit fam +:+ ":"
  +:+ (if all then "true" else "false").

(** Module-level variables the work reads and writes, the counter of
    error objects, and the log of outgoing calls. *)
Record Mem := {
  Cache : CacheData;
  HostsConfig : option CacheData;
  next_id : nat;
  queries : list Query
}.

Definition set_Cache (C : CacheData) (m : Mem) : Mem :=
  {| Cache := C; HostsConfig := HostsConfig m; next_id := next_id m;
     queries := queries m |}.
Definition set_HostsConfig (H : option CacheData) (m : Mem) : Mem :=
  {| Cache := Cache m; HostsConfig := H; next_id := next_id m;
     queries := queries m |}.
Definition issue (q : Query) (m : Mem) : Mem :=
  {| Cache := Cache m; HostsConfig := HostsConfig m; next_id := next_id m;
     queries := queries m ++ [q] |}.

(** A new error object. *)
Definition alloc (d : ErrData) (m : Mem) : JsError * Mem :=
  ({| e_id := next_id m; e_data := d |},
   {| Cache := Cache m; HostsConfig := HostsConfig m;
      next_id := S (next_id m); queries := queries m |}).

(** *** The work passed to the throttle, cut at its [await]s *)

(** Where a suspended work waits. *)
Inductive Phase :=
| AwaitHosts                (* [await hostsThrottle(loadHostsConfig)] *)
| AwaitA                    (* [await updateV4()] of the main path *)
| AwaitAAAA                 (* [await dnsPromises.resolve6(...)] *)
| AwaitASynth (e : JsError) (* [await updateV4()] in the [catch] of
                               [resolve6]; [e] is the caught error *).

(** The local [result]: the array [HostsConfig[hostname]] itself when the
    table has one, a new array otherwise. *)
Inductive ResultRef := InHosts | Fresh (l : list AddressInfoDetail).

(** The closure of a suspended work. *)
Record Work := {
  w_hostname : string;
  w_family : FamilyArg;
  w_result : ResultRef;
  w_err4 : option JsError;
  w_err6 : option JsError;
  w_v4updated : bool;
  w_phase : Phase
}.

Definition set_phase (p : Phase) (w : Work) : Work :=
  {| w_hostname := w_hostname w; w_family := w_family w;
     w_result := w_result w; w_err4 := w_err4 w; w_err6 := w_err6 w;
     w_v4updated := w_v4updated w; w_phase := p |}.
Definition set_result (r : ResultRef) (w : Work) : Work :=
  {| w_hostname := w_hostname w; w_family := w_family w;
     w_result := r; w_err4 := w_err4 w; w_err6 := w_err6 w;
     w_v4updated := w_v4updated w; w_phase := w_phase w |}.
Definition set_err4 (e : JsError) (w : Work) : Work :=
  {| w_hostname := w_hostname w; w_family := w_family w;
     w_result := w_result w; w_err4 := Some e; w_err6 := w_err6 w;
     w_v4updated := w_v4updated w; w_phase := w_phase w |}.
Definition set_err6 (e : JsError) (w : Work) : Work :=
  {| w_hostname := w_hostname w; w_family := w_family w;
     w_result := w_result w; w_err4 := w_err4 w; w_err6 := Some e;
     w_v4updated := w_v4updated w; w_phase := w_phase w |}.
Definition set_v4updated (w : Work) : Work :=
  {| w_hostname := w_hostname w; w_family := w_family w;
     w_result := w_result w; w_err4 := w_err4 w; w_err6 := w_err6 w;
     w_v4updated := true; w_phase := w_phase w |}.

(** A work is suspended, has returned [result], or has thrown. *)
Inductive Progress :=
| Suspended (w : Work)
| Returned (result : list AddressInfoDetail)
| Thrown (e : JsError).

(** The elements of [result]. *)
Definition deref (w : Work) (m : Mem) : list AddressInfoDetail :=
  match w_result w with
  | Fresh l => l
  | InHosts => default [] (HostsConfig m ≫= (.!! w_hostname w))
  end.

(** [result.push(...records)] *)
Definition push (records : list AddressInfoDetail) (w : Work) (m : Mem)
    : Work * Mem :=
  match w_result w with
  | Fresh l => (set_result (Fresh (l ++ records)) w, m)
  | InHosts =>
      (w, set_HostsConfig
            (alter (fun l => l ++ records) (w_hostname w) <$> HostsConfig m) m)
  end.

(** The end of the work: [if (err4 && err6 && !family) ... else ...]. *)
Definition conclude (w : Work) (m : Mem) : Progress * Mem :=
  match w_err4 w, w_err6 w, w_family w with
  | Some _, Some _, Unspec =>
      let '(e, m) := alloc (aggregated (w_hostname w)) m in (Thrown e, m)
  | Some err4, _, Only IPV4 => (Thrown err4, m)
  | _, Some err6, Only IPV6 => (Thrown err6, m)
  | _, _, _ => (Returned (deref w m), m)
  end.

(** [updateV4] up to its [await]. *)
Definition updateV4_call (w : Work) (m : Mem) : Work * Mem :=
  (set_v4updated w, issue (Resolve4 (w_hostname w)) m).

(** [updateV4] after its [await], [resolve4] settled with [ans] and
    [Date.now() = now]. *)
Definition updateV4_settle (ans : DnsAnswer) (now : Z) (w : Work) (m : Mem)
    : Work * Mem :=
  match ans with
  | inl records =>
      let v4 := map (stamp IPV4 (timestamp now)) records in
      let '(w, m) := push v4 w m in
      (w, set_Cache (cache_write_v4 (w_hostname w) v4 (Cache m)) m)
  | inr d =>
      let '(e, m) := alloc d m in (set_err4 e w, m)
  end.

(** From [let result = HostsConfig[hostname] || []] to the first [await]
    after it. *)
Definition after_hosts (hostname : string) (fam : FamilyArg) (m : Mem)
    : Progress * Mem :=
  let result :=
    match HostsConfig m ≫= (.!! hostname) with
    | Some _ => InHosts
    | None => Fresh []
    end in
  let w := {| w_hostname := hostname; w_family := fam; w_result := result;
              w_err4 := None; w_err6 := None; w_v4updated := false;
              w_phase := AwaitA |} in
  match fam with
  | Unspec | Only IPV4 =>
      let '(w, m) := updateV4_call w m in (Suspended w, m)
  | Only IPV6 =>
      (Suspended (set_phase AwaitAAAA w), issue (Resolve6 hostname) m)
  end.

(** The work from its first statement. *)
Definition start (hostname : string) (fam : FamilyArg) (m : Mem)
    : Progress * Mem :=
  match HostsConfig m with
  | None =>
      (Suspended {| w_hostname := hostname; w_family := fam;
                    w_result := Fresh []; w_err4 := None; w_err6 := None;
                    w_v4updated := false; w_phase := AwaitHosts |},
       issue CallHostsThrottle m)
  | Some _ => after_hosts hostname fam m
  end.

(** [HostsConfig = await hostsThrottle(loadHostsConfig)] settles. *)
Definition resume_hosts (ans : CacheData + JsError) (w : Work) (m : Mem)
    : Progress * Mem :=
  match ans with
  | inl table =>
      after_hosts (w_hostname w) (w_family w) (set_HostsConfig (Some table) m)
  | inr e => (Thrown e, m)
  end.

(** [await updateV4()] of the main path settles. *)
Definition resume_A (ans : DnsAnswer) (now : Z) (w : Work) (m : Mem)
    : Progress * Mem :=
  let '(w, m) := updateV4_settle ans now w m in
  match w_family w with
  | Unspec | Only IPV6 =>
      (Suspended (set_phase AwaitAAAA w), issue (Resolve6 (w_hostname w)) m)
  | Only IPV4 => conclude w m
  end.

(** The [catch] block of [resolve6] after [updateV4]. *)
Definition synth_tail (e : JsError) (w : Work) (m : Mem) : Progress * Mem :=
  match synthesize (w_hostname w) (Cache m) with
  | Some cache' => conclude w (set_Cache cache' m)
  | None => conclude (set_err6 e w) m
  end.

Definition is_enodata_aaaa (e : JsError) : bool :=
  bool_decide (e_code (e_data e) = Some "ENODATA")
  && bool_decide (e_syscall (e_data e) = Some "queryAaaa").

(** [await dnsPromises.resolve6(...)] settles. *)
Definition resume_AAAA (ans : DnsAnswer) (now : Z) (w : Work) (m : Mem)
    : Progress * Mem :=
  match ans with
  | inl records =>
      let v6 := map (stamp IPV6 (timestamp now)) records in
      let '(w, m) := push v6 w m in
      conclude w (set_Cache (cache_write_v6 (w_hostname w) v6 (Cache m)) m)
  | inr d =>
      let '(e, m) := alloc d m in
      if is_enodata_aaaa e && bool_decide (w_family w = Only IPV6) then
        if negb (w_v4updated w) then
          let '(w, m) := updateV4_call w m in
          (Suspended (set_phase (AwaitASynth e) w), m)
        else synth_tail e w m
      else conclude (set_err6 e w) m
  end.

(** [await updateV4()] in the [catch] of [resolve6] settles. *)
Definition resume_ASynth (e : JsError) (ans : DnsAnswer) (now : Z)
    (w : Work) (m : Mem) : Progress * Mem :=
  let '(w, m) := updateV4_settle ans now w m in
  synth_tail e w m.

(** *** Callers, answers and the event machine *)

(** One call [lookup(hostname, { family, all })] in promise mode; [c_id]
    names the promise it returns. *)
Record Caller := {
  c_id : nat;
  c_hostname : string;
  c_family : FamilyArg;
  c_all : bool
}.

(** What the promise of [lookup] is fulfilled with. *)
Inductive Answer :=
| Address (a : string)
| Addresses (l : list AddressInfo).

Inductive Settled :=
| Fulfilled (a : Answer)
| Failed (e : JsError).

Definition ai_has_family (f : Family) (a : AddressInfo) : bool :=
  family_eqb (ai_family a) f.

Definition family_number_digit (f : Family) : string :=
  match f with IPV4 => "4" | IPV6 => "6" end.

(** The last [then] of the promise path of [lookup]. *)
Definition shape (c : Caller) (addresses : list AddressInfo) (m : Mem)
    : Settled * Mem :=
  if c_all c then
    match c_family c with
    | Only f =>
        (Fulfilled (Addresses (List.filter (ai_has_family f) addresses)), m)
    | Unspec => (Fulfilled (Addresses addresses), m)
    end
  else
    match c_family c with
    | Only f =>
        match List.find (ai_has_family f) addresses with
        | Some addresse => (Fulfilled (Address (ai_address addresse)), m)
        | None =>
            let '(e, m) :=
              alloc (plain_error ErrorC
                       ("No matching IPV" +:+ family_number_digit f
                        +:+ " available for " +:+ c_hostname c +:+ ", "
                        +:+ pretty (length addresses)
                        +:+ " records in cache")) m in
            (Failed e, m)
        end
    | Unspec =>
        match addresses with
        | a :: _ => (Fulfilled (Address (ai_address a)), m)
        | [] =>
            (* [addresses[0].address] with [addresses[0]] undefined *)
            let '(e, m) :=
              alloc (plain_error TypeErrorC
                       "Cannot read properties of undefined (reading 'address')")
                    m in
            (Failed e, m)
        end
    end.

(** Every error object is truthy. *)
Definition truthy (e : JsError) : bool := true.

Abbreviation Task := (Throttle.ThrottleTask (list AddressInfoDetail) JsError Caller).
Abbreviation Outcome := (Throttle.Outcome (list AddressInfoDetail) JsError).

(** [query.then(addresses => addresses.map(...))] followed by [shape], on
    the promise the throttle returned. *)
Definition deliver (c : Caller) (o : Outcome) (m : Mem) : Settled * Mem :=
  match o with
  | Throttle.Rejected e => (Failed e, m)
  | Throttle.Resolved (Some addresses) => shape c (map project addresses) m
  | Throttle.Resolved None =>
      let '(e, m) :=
        alloc (plain_error TypeErrorC
                 "Cannot read properties of undefined (reading 'map')") m in
      (Failed e, m)
  end.

(** The program between two turns of the event loop. *)
Record State := {
  mem : Mem;
  registry : Throttle.Registry (list AddressInfoDetail) JsError Caller;
  (** suspended works, under the id of the caller that dispatched them,
      with that caller and whether the run is a background one *)
  works : gmap nat (Caller * bool * Work);
  (** callbacks given to [setImmediate], oldest first, with the key of the
      task they drain *)
  immediates :
    list (string * (option JsError * option (list AddressInfoDetail)));
  (** promises of [lookup] settled so far, oldest first *)
  settled : list (nat * Settled)
}.

Definition set_mem (m : Mem) (σ : State) : State :=
  {| mem := m; registry := registry σ; works := works σ;
     immediates := immediates σ; settled := settled σ |}.
Definition set_registry
    (r : Throttle.Registry (list AddressInfoDetail) JsError Caller)
    (σ : State) : State :=
  {| mem := mem σ; registry := r; works := works σ;
     immediates := immediates σ; settled := settled σ |}.
Definition set_works (w : gmap nat (Caller * bool * Work)) (σ : State)
    : State :=
  {| mem := mem σ; registry := registry σ; works := w;
     immediates := immediates σ; settled := settled σ |}.
Definition set_immediates
    (l : list (string * (option JsError * option (list AddressInfoDetail))))
    (σ : State) : State :=
  {| mem := mem σ; registry := registry σ; works := works σ;
     immediates := l; settled := settled σ |}.
Definition set_task (key : string) (t : Task) (σ : State) : State :=
  set_registry
    {| Throttle.gcTimer := Throttle.gcTimer (registry σ);
       Throttle.tasks := <[key := t]> (Throttle.tasks (registry σ)) |} σ.

(** The promise of caller [c] settles with [s]. *)
Definition settle (c : Caller) (s : Settled) (σ : State) : State :=
  {| mem := mem σ; registry := registry σ; works := works σ;
     immediates := immediates σ; settled := settled σ ++ [(c_id c, s)] |}.

Definition settle_from (c : Caller) (o : Outcome) (σ : State) : State :=
  let '(s, m) := deliver c o (mem σ) in settle c s (set_mem m σ).

(** The continuation of [throttle] when the work of leader [c] is over.
    The value [r] is handed over as the elements the array [result] has
    at this point; this is what the leader's [then] reads in the same
    turn, and what the drain hands to the queued jobs when no other work
    extends [HostsConfig[hostname]] between the two. *)
Definition finish (c : Caller) (bg : bool)
    (r : list AddressInfoDetail + JsError) (σ : State) : State :=
  let key := tag_of (c_hostname c) (c_family c) (c_all c) in
  match Throttle.tasks (registry σ) !! key with
  | None => σ
  | Some t =>
      if bg then set_task key (Throttle.complete_bg r t) σ
      else
        let '(t', k, o) := Throttle.complete truthy r t in
        settle_from c o
          (set_immediates (immediates σ ++ [(key, k)]) (set_task key t' σ))
  end.

(** Stores where the work of [c] got to. *)
Definition advance (c : Caller) (bg : bool) (pm : Progress * Mem)
    (σ : State) : State :=
  let σ := set_mem pm.2 σ in
  match pm.1 with
  | Suspended w => set_works (<[c_id c := (c, bg, w)]> (works σ)) σ
  | Returned l => finish c bg (inl l) (set_works (delete (c_id c) (works σ)) σ)
  | Thrown e => finish c bg (inr e) (set_works (delete (c_id c) (works σ)) σ)
  end.

Section Machine.

Variable isIP : string -> option Family.

(** [lookup], promise mode, at [Date.now() = now], up to the return of
    its promise. The work it hands to [throttle] is an [async] function:
    its call returns. *)
Definition lookup (c : Caller) (now : Z) (σ : State) : State :=
  match isIP (c_hostname c) with
  | Some _family =>
      settle c
        (Fulfilled
           (if c_all c
            then Addresses [{| ai_address := c_hostname c;
                               ai_family := _family |}]
            else Address (c_hostname c))) σ
  | None =>
      match cache_probe (c_hostname c) (c_family c) (timestamp now)
              (Cache (mem σ)) with
      | Some addresses =>
          settle_from c (Throttle.Resolved (Some addresses)) σ
      | None =>
          let key := tag_of (c_hostname c) (c_family c) (c_all c) in
          match Throttle.useThrottle key DEFAULT_TTL false (registry σ) with
          | (_, Throttle.Threw cls msg) =>
              let '(e, m) := alloc (plain_error cls msg) (mem σ) in
              settle c (Failed e) (set_mem m σ)
          | (reg, Throttle.Func resource) =>
              match Throttle.tasks reg !! resource with
              | None => σ
              | Some t =>
                  let '(t', entered) := Throttle.throttle truthy now c t in
                  let σ := set_task resource t' (set_registry reg σ) in
                  match entered with
                  | Throttle.Dispatched =>
                      advance c false
                        (start (c_hostname c) (c_family c) (mem σ)) σ
                  | Throttle.DispatchedBg o =>
                      settle_from c o
                        (advance c true
                           (start (c_hostname c) (c_family c) (mem σ)) σ)
                  | Throttle.Served o => settle_from c o σ
                  | Throttle.Enqueued => σ
                  end
              end
          end
      end
  end.

(** What the event loop runs next. *)
Inductive Event :=
| ELookup (c : Caller) (now : Z)
    (* a call of [lookup] *)
| EHosts (w : nat) (ans : CacheData + JsError)
    (* [hostsThrottle(loadHostsConfig)] settles for work [w] *)
| EResolve4 (w : nat) (ans : DnsAnswer) (now : Z)
    (* [resolve4] settles for work [w] *)
| EResolve6 (w : nat) (ans : DnsAnswer) (now : Z)
    (* [resolve6] settles for work [w] *)
| EImmediate
    (* the oldest [setImmediate] callback *).

Definition step (ev : Event) (σ : State) : State :=
  match ev with
  | ELookup c now => lookup c now σ
  | EHosts w ans =>
      match works σ !! w with
      | Some (c, bg, wk) =>
          match w_phase wk with
          | AwaitHosts => advance c bg (resume_hosts ans wk (mem σ)) σ
          | _ => σ
          end
      | None => σ
      end
  | EResolve4 w ans now =>
      match works σ !! w with
      | Some (c, bg, wk) =>
          match w_phase wk with
          | AwaitA => advance c bg (resume_A ans now wk (mem σ)) σ
          | AwaitASynth e =>
              advance c bg (resume_ASynth e ans now wk (mem σ)) σ
          | _ => σ
          end
      | None => σ
      end
  | EResolve6 w ans now =>
      match works σ !! w with
      | Some (c, bg, wk) =>
          match w_phase wk with
          | AwaitAAAA => advance c bg (resume_AAAA ans now wk (mem σ)) σ
          | _ => σ
          end
      | None => σ
      end
  | EImmediate =>
      match immediates σ with
      | [] => σ
      | (key, k) :: rest =>
          let σ := set_immediates rest σ in
          match Throttle.tasks (registry σ) !! key with
          | None => σ
          | Some t =>
              let '(t', outs) := Throttle.drain truthy k t in
              fold_left (fun σ jo => settle_from jo.1 jo.2 σ) outs
                (set_task key t' σ)
          end
      end
  end.

Definition run (evs : list Event) (σ : State) : State :=
  fold_left (fun σ ev => step ev σ) evs σ.

End Machine.

(** The state when the module has been loaded: [hostsThrottle] is the
    only task, [Cache] is empty and [HostsConfig] is [undefined]. *)
Definition loaded : State :=
  {| mem := {| Cache := ∅; HostsConfig := None; next_id := 0;
               queries := [] |};
     registry :=
       (Throttle.useThrottle "dnsLookup:loadHostsConfig" DEFAULT_TTL false
          {| Throttle.gcTimer := false; Throttle.tasks := ∅ |}).1;
     works := ∅; immediates := []; settled := [] |}.

(** The key under which a caller enters the throttle. *)
Definition key_of (c : Caller) : string :=
  tag_of (c_hostname c) (c_family c) (c_all c).

(** The task [useThrottle(key, DEFAULT_TTL)] gives: the registered one,
    or a new one. *)
Definition task_for (key : string)
    (reg : Throttle.Registry (list AddressInfoDetail) JsError Caller) : Task :=
  default (Throttle.createThrottleTask DEFAULT_TTL false)
    (Throttle.tasks reg !! key).

(** A call of [throttle] by [c] at [now] would make [c] the leader of a
    foreground run. *)
Definition leads (c : Caller) (now : Z) (σ : State) : Prop :=
  (Throttle.throttle truthy now c (task_for (key_of c) (registry σ))).2
  = Throttle.Dispatched.

(** The event by which the override table reaches work [w] when it is
    not loaded yet in [σ], and the call the work makes for it. *)
Definition hosts_arrival (σ : State) (w : nat) (table : CacheData)
    : list Event :=
  match HostsConfig (mem σ) with
  | Some _ => []
  | None => [EHosts w (inl table)]
  end.

Definition hosts_calls (σ : State) : list Query :=
  match HostsConfig (mem σ) with
  | Some _ => []
  | None => [CallHostsThrottle]
  end.

(** The answers of caller [i], oldest first. *)
Definition answers (i : nat) (σ : State) : list Settled :=
  map snd (List.filter (fun p => Nat.eqb p.1 i) (settled σ)).

(** A stand-in for [net.isIP] to run examples with: exact on dotted
    quads, and for IPv6 any string of hexadecimal digits, colons and dots
    with at least two colons. *)
Module SampleIP.

Definition is_digit (c : ascii) : bool :=
  (48 <=? N_of_ascii c)%N && (N_of_ascii c <=? 57)%N.

Definition is_hex (c : ascii) : bool :=
  let n := N_of_ascii c in
  is_digit c || ((65 <=? n) && (n <=? 70))%N || ((97 <=? n) && (n <=? 102))%N.

Definition digit_value (c : ascii) : N := (N_of_ascii c - 48)%N.

(** One segment: [25[0-5]|2[0-4]\d|1\d\d|[1-9]\d|\d]. *)
Definition segment (s : list ascii) : bool :=
  match s with
  | [a] => is_digit a
  | [a; b] => is_digit a && is_digit b && negb (digit_value a =? 0)%N
  | [a; b; c] =>
      is_digit a && is_digit b && is_digit c
      && negb (digit_value a =? 0)%N
      && (100 * digit_value a + 10 * digit_value b + digit_value c <=? 255)%N
  | _ => false
  end.

Fixpoint split_on (sep : ascii) (s : list ascii) : list (list ascii) :=
  match s with
  | [] => [[]]
  | c :: r =>
      if Ascii.eqb c sep then [] :: split_on sep r
      else
        match split_on sep r with
        | x :: xs => (c :: x) :: xs
        | [] => [[c]]
        end
  end.

Definition is_v4 (s : string) : bool :=
  let segs := split_on "."%char (list_ascii_of_string s) in
  Nat.eqb (length segs) 4 && forallb segment segs.

Definition is_v6 (s : string) : bool :=
  let cs := list_ascii_of_string s in
  forallb (fun c => is_hex c || Ascii.eqb c ":"%char || Ascii.eqb c "."%char)
    cs
  && Nat.leb 2 (length (List.filter (Ascii.eqb ":"%char) cs)).

Definition isIP (s : string) : option Family :=
  if is_v4 s then Some IPV4 else if is_v6 s then Some IPV6 else None.

End SampleIP.

(** ** Sample data for the examples *)

Definition sample_hosts : string :=
  "127.0.0.1   localhost loc # c
# comment
::1 localhost ip6-localhost
bogus  name1 name2
203.0.113.5 example.test".

(** A throttle over numbers as values and strings as thrown values, the
    empty string being the falsy one. *)
Definition sample_truthy (e : string) : bool := negb (String.eqb e "").


Definition fresh_task : Throttle.ThrottleTask nat string nat :=
  Throttle.createThrottleTask 10000 false.

Definition host : string := "example.test".

Definition old6 : AddressInfoDetail :=
  {| address := "2001:db8::1"; family := IPV6; expireAt := 1700000000 |}.
Definition kept4 : AddressInfoDetail :=
  {| address := "198.51.100.7"; family := IPV4; expireAt := 1700000900 |}.

(** A state whose cache entry for [host] holds an expired IPv6 record and
    a live IPv4 record; the override table is loaded and empty. *)
Definition stale6 : State :=
  set_mem {| Cache := {[ host := [old6; kept4] ]}; HostsConfig := Some ∅;
             next_id := 0; queries := [] |} loaded.

Definition caller (i : nat) (fam : FamilyArg) (all : bool) : Caller :=
  {| c_id := i; c_hostname := host; c_family := fam; c_all := all |}.

Definition override4 : AddressInfoDetail :=
  {| address := "203.0.113.5"; family := IPV4; expireAt := 1700000010 |}.

(** The override table is loaded and maps [host] to 203.0.113.5; the
    cache is empty. *)
Definition overridden : State :=
  set_mem {| Cache := ∅; HostsConfig := Some {[ host := [override4] ]};
             next_id := 0; queries := [] |} loaded.

(** The error of an AAAA query for a name without AAAA record. *)
Definition enodata_aaaa : ErrData :=
  {| e_class := ErrorC; e_message := "queryAaaa ENODATA example.test";
     e_errno := None; e_code := Some "ENODATA";
     e_syscall := Some "queryAaaa"; e_hostname := Some host |}.

(** The error of an A query for a name without A record. *)
Definition enodata_a : ErrData :=
  {| e_class := ErrorC; e_message := "queryA ENODATA example.test";
     e_errno := None; e_code := Some "ENODATA";
     e_syscall := Some "queryA"; e_hostname := Some host |}.

Definition cached6 : AddressInfoDetail :=
  {| address := "2001:db8::1"; family := IPV6; expireAt := 1700000300 |}.
Definition cached4 : AddressInfoDetail :=
  {| address := "198.51.100.7"; family := IPV4; expireAt := 1700000301 |}.

(** After the module is loaded: a family-6 request whose AAAA query
    succeeds, then a family-4 request whose A query succeeds. *)
Definition both_live : State :=
  run SampleIP.isIP
    [ELookup (caller 1 (Only IPV6) true) 1700000000000;
     EHosts 1 (inl ∅);
     EResolve6 1 (inl [{| rr_address := "2001:db8::1"; rr_ttl := 300 |}])
       1700000000040;
     EImmediate;
     ELookup (caller 2 (Only IPV4) true) 1700000001000;
     EResolve4 2 (inl [{| rr_address := "198.51.100.7"; rr_ttl := 300 |}])
       1700000001040;
     EImmediate]
    loaded.


Definition in_flight : Task :=
  {| Throttle.interval := 10000; Throttle.backgroundUpdate := false;
     Throttle.lastActive := 1700000000000; Throttle.cache := None;
     Throttle.queue := [] |}.

(** ** Vocabulary of the further properties *)

(** The last character of a non-empty string is not white space. *)
Fixpoint ends_nonspace (s : string) : bool :=
  match s with
  | EmptyString => false
  | String c EmptyString => negb (JS.is_space c)
  | String _ r => ends_nonspace r
  end.

(** No character of the string is white space. *)
Fixpoint no_space (s : string) : bool :=
  match s with
  | EmptyString => true
  | String c r => negb (JS.is_space c) && no_space r
  end.

(** A name as the loader stores it: not empty, without white space, not
    starting a comment. *)
Definition clean_name (s : string) : bool :=
  negb (String.eqb s "") && no_space s && negb (JS.startsWith "#" s).

(** The records of a host in a table, none when it has no entry. *)
Definition entries (m : CacheData) (hostname : string)
    : list AddressInfoDetail :=
  default [] (m !! hostname).

(** The line carries no record: it is blank or a comment. *)
Definition blank_or_comment (line : string) : bool :=
  String.eqb (JS.trim line) "" || JS.startsWith "#" (JS.trim line).

(** Every entry of a table is non-empty and stored under a clean name. *)
Definition well_named (configs : CacheData) : Prop :=
  ∀ h l, configs !! h = Some l → clean_name h = true ∧ l ≠ [].

(** How a finished work ends, as [Progress]. *)
Definition progress_of (r : list AddressInfoDetail + JsError) : Progress :=
  match r with
  | inl l => Returned l
  | inr e => Thrown e
  end.

(** The override table a work sees: the loaded one, or the one that
    arrives. *)
Definition table_seen (σ : State) (table : CacheData) : CacheData :=
  default table (HostsConfig (mem σ)).

(** The local [result] as bound by a work for [hostname]. *)
Definition result_ref (table : CacheData) (hostname : string) : ResultRef :=
  match table !! hostname with
  | Some _ => InHosts
  | None => Fresh []
  end.

(** The local [result] of the work designates an array: when it is the
    array of the override table, the table has one for the host. *)
Definition ref_ok (w : Work) (m : Mem) : Prop :=
  w_result w = InHosts → is_Some (HostsConfig m ≫= (.!! w_hostname w)).

(** No entry of the resolution cache and no suspended work is for a name
    that is a literal address. *)
Definition literal_free (isIP : string -> option Family) (σ : State) : Prop :=
  (∀ h slot, Cache (mem σ) !! h = Some slot → isIP h = None)
  ∧ (∀ i c bg w, works σ !! i = Some (c, bg, w) → isIP (w_hostname w) = None).

(** A continuation of a work for [hostname] adds no cache entry but for
    that host, and stays a work for that host. *)
Definition confined (hostname : string) (m : Mem) (pm : Progress * Mem)
    : Prop :=
  (∀ h slot, Cache pm.2 !! h = Some slot →
     h = hostname ∨ is_Some (Cache m !! h))
  ∧ (∀ w', pm.1 = Suspended w' → w_hostname w' = hostname).

(** ** The callback mode of [lookup] *)

(** The second argument a callback receives. *)
Inductive CbValue :=
| CbAddress (a : string)
| CbAddresses (l : list AddressInfo)
| CbNull
| CbUndefined.

(** One call [callback(err, address, family)]; [cb_family] is [None] when
    the callback is given two arguments, [Some Unspec] when it is given
    [0]. *)
Record CbCall := {
  cb_err : option JsError;
  cb_value : CbValue;
  cb_family : option FamilyArg
}.

(** The [then] of the callback path of [lookup], and its [catch] for what
    the [then] throws. The callback itself is taken not to throw. *)
Definition shape_cb (c : Caller) (addresses : list AddressInfo) (m : Mem)
    : CbCall * Mem :=
  if c_all c then
    match c_family c with
    | Only f =>
        ({| cb_err := None;
            cb_value := CbAddresses (List.filter (ai_has_family f) addresses);
            cb_family := None |}, m)
    | Unspec =>
        ({| cb_err := None; cb_value := CbAddresses addresses;
            cb_family := None |}, m)
    end
  else
    match c_family c with
    | Only f =>
        match List.find (ai_has_family f) addresses with
        | Some addresse =>
            ({| cb_err := None; cb_value := CbAddress (ai_address addresse);
                cb_family := Some (Only f) |}, m)
        | None =>
            let '(e, m) :=
              alloc (plain_error ErrorC
                       ("No matching IPV" +:+ family_number_digit f
                        +:+ " available for " +:+ c_hostname c +:+ ", "
                        +:+ pretty (length addresses)
                        +:+ " records in cache")) m in
            ({| cb_err := Some e; cb_value := CbNull;
                cb_family := Some Unspec |}, m)
        end
    | Unspec =>
        match addresses with
        | a :: _ =>
            ({| cb_err := None; cb_value := CbAddress (ai_address a);
                cb_family := Some (Only (ai_family a)) |}, m)
        | [] =>
            (* [addresses[0].address] throws, [catch] calls back *)
            let '(e, m) :=
              alloc (plain_error TypeErrorC
                       "Cannot read properties of undefined (reading 'address')")
                    m in
            ({| cb_err := Some e; cb_value := CbUndefined;
                cb_family := None |}, m)
        end
    end.

(** The callback path on the promise the throttle or the cache gave. *)
Definition deliver_cb (c : Caller) (o : Outcome) (m : Mem) : CbCall * Mem :=
  match o with
  | Throttle.Rejected e =>
      ({| cb_err := Some e; cb_value := CbUndefined; cb_family := None |}, m)
  | Throttle.Resolved (Some addresses) => shape_cb c (map project addresses) m
  | Throttle.Resolved None =>
      let '(e, m) :=
        alloc (plain_error TypeErrorC
                 "Cannot read properties of undefined (reading 'map')") m in
      ({| cb_err := Some e; cb_value := CbUndefined; cb_family := None |}, m)
  end.

(** The callback is told what the promise would be settled with. *)
Definition agrees (s : Settled) (call : CbCall) : Prop :=
  match s with
  | Fulfilled (Address a) =>
      cb_err call = None ∧ cb_value call = CbAddress a
      ∧ ∃ f, cb_family call = Some (Only f)
  | Fulfilled (Addresses l) =>
      cb_err call = None ∧ cb_value call = CbAddresses l
      ∧ cb_family call = None
  | Failed e =>
      cb_err call = Some e
      ∧ (cb_value call = CbNull ∨ cb_value call = CbUndefined)
  end.

(** ** [install] *)

(** The value of [options.lookup]: falsy, a function of the user, or the
    function [tryAttach] makes, which holds the [family] of [install]. *)
Inductive LookupOption :=
| NoLookup
| UserLookup (id : nat)
| BetterLookup (fam : FamilyArg).

(** The options of a connection, as far as [install] reads them;
    [o_family] is [None] for [undefined] and [null]. *)
Record ConnOptions := {
  o_lookup : LookupOption;
  o_family : option FamilyArg
}.

(** A function found under [createConnection]: one of the platform or of
    the user, or the wrapper [install] makes. *)
Inductive CreateFn :=
| Native (id : nat)
| Patched (fam : FamilyArg).

(** The value of [agent.proxy] by its [typeof]. *)
Inductive ProxyField :=
| ProxyObject (o : ConnOptions)
| ProxyNull
| ProxyOther.

(** An agent, as far as [install] reads and writes it: [createConnection]
    is [None] when it is not a function, [saved] is the property under the
    symbol [_createConnection], [None] when the agent has none. *)
Record Agent := {
  createConnection : option CreateFn;
  saved : option CreateFn;
  constructor_name : string;
  proxy : ProxyField
}.

(** [tryAttach(options)] with the [family] of the enclosing [install]. *)
Definition tryAttach (fam : FamilyArg) (o : ConnOptions) : ConnOptions :=
  match o_lookup o with
  | NoLookup => {| o_lookup := BetterLookup fam; o_family := o_family o |}
  | _ => o
  end.

(** The family the installed function passes to [lookup]:
    [options["family"] ?? family]. *)
Definition installed_family (fam : FamilyArg) (o : ConnOptions) : FamilyArg :=
  default fam (o_family o).

Definition isHttpsProxyAgent (agent : Agent) : bool :=
  String.eqb (constructor_name agent) "HttpsProxyAgent"
  && match proxy agent with
     | ProxyObject _ | ProxyNull => true
     | ProxyOther => false
     end.

(** [install(agent, family)]: the agent as it is left, or what is thrown. *)
Definition install (agent : Agent) (fam : FamilyArg)
    : Agent + ErrorClass * string :=
  match createConnection agent with
  | Some f =>
      match saved agent with
      | Some _ => inl agent
      | None =>
          inl {| createConnection := Some (Patched fam); saved := Some f;
                 constructor_name := constructor_name agent;
                 proxy := proxy agent |}
      end
  | None =>
      if isHttpsProxyAgent agent then
        match proxy agent with
        | ProxyObject o =>
            inl {| createConnection := None; saved := saved agent;
                   constructor_name := constructor_name agent;
                   proxy := ProxyObject (tryAttach fam o) |}
        | _ =>
            (* [options["lookup"]] with [options] null *)
            inr (TypeErrorC,
                 "Cannot read properties of null (reading 'lookup')")
        end
      else
        inr (TypeErrorC, "Cannot install lookup function on the given agent")
  end.

(** A call [agent.createConnection(options, callback)]: the function that
    is called in the end and the options it is given; [None] when there is
    no function to call. *)
Definition connect (agent : Agent) (options : ConnOptions)
    : option (CreateFn * ConnOptions) :=
  match createConnection agent with
  | Some (Patched fam) =>
      match saved agent with
      | Some g => Some (g, tryAttach fam options)
      | None => None
      end
  | Some (Native i) => Some (Native i, options)
  | None => None
  end.

(** ** Sample data for the further examples *)

(** A background task whose cached value 7 is older than its interval. *)
Definition bg_task : Throttle.ThrottleTask nat string nat :=
  {| Throttle.interval := 10000; Throttle.backgroundUpdate := true;
     Throttle.lastActive := 1700000000000;
     Throttle.cache := Some (Throttle.cached_of (inl 7%nat));
     Throttle.queue := [] |}.

(** A foreground task whose leader is still at work, with one job
    queued. *)
Definition stuck_task : Throttle.ThrottleTask nat string nat :=
  {| Throttle.interval := 10000; Throttle.backgroundUpdate := false;
     Throttle.lastActive := 1700000000000; Throttle.cache := None;
     Throttle.queue := [5%nat] |}.

Definition empty_registry : Throttle.Registry nat string nat :=
  {| Throttle.gcTimer := false; Throttle.tasks := ∅ |}.

(** An error of the resolver that is not ENODATA. *)
Definition servfail_aaaa : ErrData :=
  {| e_class := ErrorC; e_message := "queryAaaa ESERVFAIL example.test";
     e_errno := None; e_code := Some "ESERVFAIL";
     e_syscall := Some "queryAaaa"; e_hostname := Some host |}.

Definition a_record : DnsRecord :=
  {| rr_address := "198.51.100.7"; rr_ttl := 300 |}.

(** An agent of the platform, never served by [install]. *)
Definition plain_agent : Agent :=
  {| createConnection := Some (Native 1); saved := None;
     constructor_name := "Agent"; proxy := ProxyOther |}.

Definition bare_options : ConnOptions :=
  {| o_lookup := NoLookup; o_family := Some Unspec |}.

(** ** Calls that share a key *)






(** * Properties *)

(** ** The override table *)

Section HostsFacts.

Variable isIP : string -> option Family.

Lemma add_aliases_invalid addr exp aliases configs :
  isIP addr = None → add_aliases isIP addr exp aliases configs = configs.
Proof.
  intros Hbad. induction aliases as [|a rest IH]; simpl; [done|].
  destruct (JS.startsWith "#" a); [done|]. by rewrite Hbad.
Qed.

Lemma add_line_invalid exp configs segments :
  valid_first isIP segments = false → add_line isIP exp configs segments = configs.
Proof.
  destruct segments as [|addr aliases]; simpl; [done|].
  destruct (isIP addr) eqn:E; [done|]. intros _.
  by apply add_aliases_invalid.
Qed.

Lemma fold_add_line_skip exp lines configs :
  fold_left (add_line isIP exp) lines configs
  = fold_left (add_line isIP exp) (List.filter (valid_first isIP) lines) configs.
Proof.
  revert configs. induction lines as [|l lines IH]; intros configs; simpl.
  - done.
  - destruct (valid_first isIP l) eqn:E; simpl.
    + apply IH.
    + rewrite add_line_invalid by done. apply IH.
Qed.

Lemma push_record_stamped exp configs h r :
  stamped_with isIP exp configs →
  expireAt r = exp → isIP (address r) = Some (family r) →
  stamped_with isIP exp (push_record configs h r).
Proof.
  intros Hc He Hip h' l' r'. unfold push_record.
  destruct (configs !! h) as [l|] eqn:Eh.
  - destruct (decide (h = h')) as [->|Hne].
    + rewrite lookup_insert_eq. intros [= <-] Hin.
      apply in_app_or in Hin as [Hin|[<-|[]]]; [by eapply Hc|done].
    + rewrite lookup_insert_ne by done. apply Hc.
  - destruct (decide (h = h')) as [->|Hne].
    + rewrite lookup_insert_eq. intros [= <-] [<-|[]]. done.
    + rewrite lookup_insert_ne by done. apply Hc.
Qed.

Lemma add_aliases_stamped addr exp aliases configs :
  stamped_with isIP exp configs →
  stamped_with isIP exp (add_aliases isIP addr exp aliases configs).
Proof.
  revert configs. induction aliases as [|a rest IH]; intros configs Hc; simpl.
  - done.
  - destruct (JS.startsWith "#" a); [done|].
    destruct (isIP addr) as [fam|] eqn:E; [|by apply IH].
    apply IH. by apply push_record_stamped.
Qed.

Lemma fold_add_line_stamped exp lines configs :
  stamped_with isIP exp configs →
  stamped_with isIP exp (fold_left (add_line isIP exp) lines configs).
Proof.
  revert configs. induction lines as [|l lines IH]; intros configs Hc; simpl.
  - done.
  - apply IH. destruct l as [|addr aliases]; simpl; [done|].
    by apply add_aliases_stamped.
Qed.

(** C9. One load of the override file uses no part of a line whose first
    token is not an IPv4 or IPv6 literal (the table is the one of the
    file without these lines), and every record it produces expires at
    load time plus [MIN_TTL_SEC] = 10 seconds. *)
Theorem loadHostsConfig_skips_and_stamps hostFile now_ms :
  loadHostsConfig isIP hostFile now_ms
  = parse_lines isIP (timestamp now_ms + 10)
      (List.filter (valid_first isIP) (hosts_lines hostFile))
  ∧ ∀ hostname records r,
      loadHostsConfig isIP hostFile now_ms !! hostname = Some records →
      In r records →
      expireAt r = timestamp now_ms + 10
      ∧ isIP (address r) = Some (family r).
Proof.
  split.
  - unfold loadHostsConfig, parse_lines. apply fold_add_line_skip.
  - intros hostname records r. unfold loadHostsConfig, parse_lines.
    apply fold_add_line_stamped. intros h l r'. by rewrite lookup_empty.
Qed.

End HostsFacts.

Lemma loadHostsConfig_skips_and_stamps_witness :
  loadHostsConfig SampleIP.isIP sample_hosts 1700000000123 !! "example.test"
  = Some [{| address := "203.0.113.5"; family := IPV4;
             expireAt := 1700000010 |}]
  ∧ loadHostsConfig SampleIP.isIP sample_hosts 1700000000123 !! "name1" = None
  ∧ expireAt {| address := "203.0.113.5"; family := IPV4;
                expireAt := 1700000010 |} = timestamp 1700000000123 + 10.
Proof.
  split; [vm_compute; reflexivity|]. split; [vm_compute; reflexivity|].
  refine (proj1 (proj2 (loadHostsConfig_skips_and_stamps SampleIP.isIP
                   sample_hosts 1700000000123) "example.test" _ _ _ _)).
  - vm_compute. reflexivity.
  - left. reflexivity.
Defined.

(** ** The throttle *)

Module ThrottleFacts.
Import Throttle.

Section Facts.

Context {R E J : Type}.
Variable truthy : E -> bool.

Implicit Types (t : ThrottleTask R E J) (r : R + E) (job : J).

(** C10. For every interval below 1, [useThrottle] throws its
    [RangeError] and leaves the registry (the tasks of every resource
    and the gc timer) as it was: no task is created or read. *)
Theorem useThrottle_small_interval_throws
    (resource : string) (interval : Z) (backgroundUpdate : bool)
    (reg : Registry R E J) :
  interval < 1 →
  useThrottle resource interval backgroundUpdate reg
  = (reg,
     Threw RangeErrorC
       "The 'interval' time for throttle must not be smaller than 1").
Proof.
  intros Hlt. unfold useThrottle.
  destruct (interval <? 1) eqn:Ei; [done|].
  apply Z.ltb_ge in Ei. lia.
Qed.

(** The sweep keeps every task that was active within the larger of
    its interval plus 5 ms and [gcInterval]. *)
Lemma gc_keeps_recent (reg : Registry R E J) key t now :
  tasks reg !! key = Some t →
  now - lastActive t ≤ Z.max (interval t + 5) gcInterval →
  tasks (gc now reg) !! key = Some t.
Proof.
  intros Hk Hrecent. unfold gc. cbn [tasks].
  apply map_lookup_filter_Some. split; [done|]. cbn. lia.
Qed.

(** The leader's continuation stores what a later call replays. *)
Lemma complete_cache r t :
  cache (complete truthy r t).1.1 = Some (cached_of r)
  ∧ (complete truthy r t).2 = replay truthy (cached_of r)
  ∧ lastActive (complete truthy r t).1.1 = lastActive t
  ∧ interval (complete truthy r t).1.1 = interval t.
Proof. by destruct r. Qed.


Lemma throttle_enqueues t now job :
  cache t = None →
  now - lastActive t < interval t →
  throttle truthy now job t
  = ({| interval := interval t; backgroundUpdate := backgroundUpdate t;
        lastActive := lastActive t; cache := None;
        queue := queue t ++ [job] |}, Enqueued).
Proof.
  intros Hc Hlt. unfold throttle.
  destruct (now - lastActive t >=? interval t) eqn:Eg.
  - apply Z.geb_le in Eg. lia.
  - by rewrite Hc.
Qed.

Lemma throttle_dispatched t t1 now job :
  throttle truthy now job t = (t1, Dispatched) →
  t1 = {| interval := interval t; backgroundUpdate := backgroundUpdate t;
          lastActive := now; cache := None; queue := queue t |}.
Proof.
  unfold throttle. destruct (now - lastActive t >=? interval t).
  - destruct (backgroundUpdate t), (cache t); by intros [= <-].
  - destruct (cache t); by intros [= <-].
Qed.

(** Calls that arrive while the leader's work is in flight and within
    the interval are all queued, in order. *)
Lemma enter_all_enqueues (calls : list (Z * J)) t :
  cache t = None →
  Forall (fun call => call.1 - lastActive t < interval t) calls →
  enter_all truthy calls t
  = ({| interval := interval t; backgroundUpdate := backgroundUpdate t;
        lastActive := lastActive t; cache := None;
        queue := queue t ++ map snd calls |},
     map (fun _ => Enqueued) calls).
Proof.
  revert t. induction calls as [|[now job] rest IH]; intros t Hc Hall.
  - simpl. rewrite app_nil_r. destruct t; simpl in *. by subst.
  - inversion Hall as [|? ? Hnow Hrest]; subst. simpl in Hnow.
    cbn [enter_all]. rewrite throttle_enqueues by done.
    rewrite IH; [|done|done]. simpl. by rewrite <- app_assoc.
Qed.

(** Calls that enter the throttle of one key: when the
    first becomes the leader and the others arrive within the interval
    that starts with it, the work is invoked once, every other call is
    queued, and once the work settles with [r] the [setImmediate]
    callback settles every queued job with the outcome [o] the leader
    itself gets. *)
Theorem throttle_single_flight t0 t1 now0 (leader : J)
    (others : list (Z * J)) r :
  throttle truthy now0 leader t0 = (t1, Dispatched) →
  Forall (fun call => call.1 - now0 < interval t0) others →
  ∃ t2,
    enter_all truthy others t1 = (t2, map (fun _ => Enqueued) others)
    ∧ length
        (List.filter invokes_handle
           (Dispatched :: (enter_all truthy others t1).2)) = 1%nat
    ∧ ∀ t3 k o,
        complete truthy r t2 = (t3, k, o) →
        (drain truthy k t3).2
        = map (fun job => (job, o)) (queue t0 ++ map snd others)
        ∧ queue (drain truthy k t3).1 = []
        ∧ cache (drain truthy k t3).1 = Some (cached_of r)
        ∧ o = replay truthy (cached_of r).
Proof.
  intros Hlead Hwin. apply throttle_dispatched in Hlead. subst t1.
  eexists. split.
  { rewrite enter_all_enqueues; [reflexivity|done|done]. }
  split.
  { rewrite enter_all_enqueues by done. cbn [snd List.filter invokes_handle].
    clear. induction others as [|c l IH]; [done|]. simpl. exact IH. }
  intros t3 k o Hdone. simpl in Hdone.
  destruct r as [v|e]; simpl in Hdone; injection Hdone as <- <- <-; done.
Qed.

End Facts.

End ThrottleFacts.

Lemma useThrottle_small_interval_throws_witness :
  (0 < 1)
  ∧ Throttle.useThrottle (R := nat) (E := string) (J := nat) "dnsLookup:x" 0
      false {| Throttle.gcTimer := false; Throttle.tasks := ∅ |}
    = ({| Throttle.gcTimer := false; Throttle.tasks := ∅ |},
       Throttle.Threw RangeErrorC
         "The 'interval' time for throttle must not be smaller than 1").
Proof.
  split; [lia|].
  apply (ThrottleFacts.useThrottle_small_interval_throws "dnsLookup:x" 0 false).
  lia.
Defined.



Lemma throttle_single_flight_witness :
  ∃ t2,
    Throttle.enter_all sample_truthy
      [(1700000000001, 2%nat); (1700000000500, 3%nat)]
      (Throttle.throttle sample_truthy 1700000000000 1%nat fresh_task).1
    = (t2, [Throttle.Enqueued; Throttle.Enqueued])
    ∧ length
        (List.filter Throttle.invokes_handle
           (Throttle.Dispatched
            :: (Throttle.enter_all sample_truthy
                  [(1700000000001, 2%nat); (1700000000500, 3%nat)]
                  (Throttle.throttle sample_truthy 1700000000000 1%nat
                     fresh_task).1).2)) = 1%nat
    ∧ ∀ t3 k o,
        Throttle.complete sample_truthy (inl 42%nat) t2 = (t3, k, o) →
        (Throttle.drain sample_truthy k t3).2
        = [(2%nat, o); (3%nat, o)]
        ∧ Throttle.queue (Throttle.drain sample_truthy k t3).1 = []
        ∧ Throttle.cache (Throttle.drain sample_truthy k t3).1
          = Some (Throttle.cached_of (inl 42%nat))
        ∧ o = Throttle.Resolved (Some 42%nat).
Proof.
  apply (ThrottleFacts.throttle_single_flight sample_truthy fresh_task _
           1700000000000 1%nat
           [(1700000000001, 2%nat); (1700000000500, 3%nat)] (inl 42%nat)).
  - reflexivity.
  - repeat constructor.
Defined.

(** ** Stamping and the cache writes *)

Lemma stamp_expireAt f now r :
  MIN_TTL_SEC ≤ rr_ttl r + now → expireAt (stamp f now r) = rr_ttl r + now.
Proof. intros H. unfold stamp; simpl. lia. Qed.

Lemma stamp_family f now records :
  Forall (fun a => family a = f) (map (stamp f now) records).
Proof. induction records; constructor; done. Qed.

(** C5. A record fetched with an authoritative TTL of 3 seconds at second
    1700000000 expires at 1700000003 = [Math.max(ttl + now, 10)], not at
    now + max(ttl, 10) = 1700000010, and is no longer live three seconds
    after the fetch. *)
Theorem stamp_short_ttl_expires_early :
  let now := timestamp 1700000000123 in
  let a := stamp IPV4 now {| rr_address := "198.51.100.7"; rr_ttl := 3 |} in
  now = 1700000000
  ∧ expireAt a = 1700000003
  ∧ expireAt a ≠ now + Z.max 3 MIN_TTL_SEC
  ∧ live (now + 3) a = false.
Proof. vm_compute. repeat split; congruence. Qed.

Lemma filter_has_not_family f l :
  List.filter (has_family f) (List.filter (not_family f) l) = [].
Proof.
  induction l as [|a l IH]; cbn [List.filter]; [done|].
  destruct (not_family f a) eqn:E; cbn [List.filter]; [|done].
  destruct (has_family f a) eqn:E2; [|done].
  unfold not_family, has_family in *. by rewrite E2 in E.
Qed.

Lemma filter_other_family f g l :
  f ≠ g →
  List.filter (has_family g) (List.filter (not_family f) l)
  = List.filter (has_family g) l.
Proof.
  intros Hne. induction l as [|a l IH]; cbn [List.filter]; [done|].
  destruct (not_family f a) eqn:E; cbn [List.filter]; rewrite IH; [done|].
  destruct (has_family g a) eqn:E2; [|done].
  unfold not_family, has_family in *.
  destruct (family a), f, g; simpl in *; congruence.
Qed.

Lemma filter_has_family_all f l :
  Forall (fun a => family a = f) l → List.filter (has_family f) l = l.
Proof.
  induction 1 as [|a l Ha _ IH]; cbn [List.filter]; [done|].
  unfold has_family at 1. rewrite Ha, IH. by destruct f.
Qed.

Lemma filter_has_family_none f g l :
  f ≠ g → Forall (fun a => family a = f) l → List.filter (has_family g) l = [].
Proof.
  intros Hne. induction 1 as [|a l Ha _ IH]; cbn [List.filter]; [done|].
  unfold has_family at 1. rewrite Ha, IH. by destruct f, g.
Qed.

(** The write of [updateV4] replaces the IPv4 records of the entry and
    keeps its IPv6 records; other entries are not touched. *)
Lemma cache_write_v4_replaces hostname v4 (cache : CacheData) slot :
  cache !! hostname = Some slot →
  Forall (fun a => family a = IPV4) v4 →
  ∃ slot',
    cache_write_v4 hostname v4 cache !! hostname = Some slot'
    ∧ List.filter (has_family IPV4) slot' = v4
    ∧ List.filter (has_family IPV6) slot' = List.filter (has_family IPV6) slot
    ∧ ∀ other, other ≠ hostname →
        cache_write_v4 hostname v4 cache !! other = cache !! other.
Proof.
  intros Hs Hv4. unfold cache_write_v4. rewrite Hs. eexists.
  split; [apply lookup_insert_eq|]. split; [|split].
  - rewrite List.filter_app, filter_has_not_family.
    by rewrite filter_has_family_all.
  - rewrite List.filter_app, filter_other_family by done.
    rewrite (filter_has_family_none IPV4 IPV6 v4) by done. apply app_nil_r.
  - intros other Hne. by rewrite lookup_insert_ne.
Qed.

(** The write after a successful [resolve6] changes nothing when the
    host has an entry. *)
Lemma cache_write_v6_existing hostname v6 (cache : CacheData) slot :
  cache !! hostname = Some slot → cache_write_v6 hostname v6 cache = cache.
Proof. intros Hs. unfold cache_write_v6. by rewrite Hs. Qed.

(** The write of the synthesis keeps the IPv4 records of the entry. *)
Lemma synthesize_keeps_v4 hostname (cache cache' : CacheData) slot :
  cache !! hostname = Some slot →
  synthesize hostname cache = Some cache' →
  ∃ slot',
    cache' !! hostname = Some slot'
    ∧ List.filter (has_family IPV4) slot' = List.filter (has_family IPV4) slot.
Proof.
  intros Hs. unfold synthesize. rewrite Hs. intros [= <-]. eexists.
  split; [apply lookup_insert_eq|].
  rewrite List.filter_app, filter_other_family by done.
  rewrite (filter_has_family_none IPV6 IPV4 (map mapped _));
    [apply app_nil_r|done|].
  clear. induction (List.filter (not_family IPV4) slot); constructor; done.
Qed.

(** C3. A family-6 request for a host whose entry holds an expired IPv6
    record and a live IPv4 record: the AAAA query succeeds with a new
    record, the caller gets it, and the entry is left as it was; the old
    IPv6 record is not removed and the new one is not stored. *)
Theorem resolve6_refresh_not_stored :
  let σ :=
    run SampleIP.isIP
      [ELookup (caller 1 (Only IPV6) true) 1700000100000;
       EResolve6 1 (inl [{| rr_address := "2001:db8::2"; rr_ttl := 300 |}])
         1700000100200]
      stale6 in
  answers 1 σ
  = [Fulfilled (Addresses [{| ai_address := "2001:db8::2";
                              ai_family := IPV6 |}])]
  ∧ queries (mem σ) = [Resolve6 host]
  ∧ Cache (mem σ) !! host = Some [old6; kept4]
  ∧ cache_write_v6 host
      [stamp IPV6 1700000100 {| rr_address := "2001:db8::2"; rr_ttl := 300 |}]
      (Cache (mem stale6)) = Cache (mem stale6).
Proof. vm_compute. repeat split. Qed.

(** ** Answers from the resolution cache *)

Lemma filter_true {A} (l : list A) : List.filter (fun _ => true) l = l.
Proof. induction l; simpl; congruence. Qed.

Lemma cache_probe_usable hostname fam now (cache : CacheData) :
  cache_probe hostname fam now cache
  = match cache !! hostname with
    | None => None
    | Some slot =>
        match usable fam now slot with
        | [] => None
        | l => Some l
        end
    end.
Proof.
  unfold cache_probe, usable. destruct (cache !! hostname) as [slot|]; [|done].
  destruct fam as [|f].
  - change (wanted Unspec) with (fun _ : AddressInfoDetail => true).
    rewrite filter_true. by destruct (List.filter (live now) slot).
  - change (wanted (Only f)) with (has_family f).
    by destruct (List.filter (has_family f) (List.filter (live now) slot)).
Qed.

Lemma usable_wanted fam now slot :
  Forall (fun a => wanted fam a = true) (usable fam now slot).
Proof.
  unfold usable. apply Forall_forall. intros a Ha.
  apply list_elem_of_In in Ha. by apply List.filter_In in Ha as [_ Ha].
Qed.

Lemma usable_inhabited fam now slot a :
  In a slot → live now a = true → wanted fam a = true →
  ∃ first rest, usable fam now slot = first :: rest.
Proof.
  intros Hin Hl Hw.
  assert (Hu : In a (usable fam now slot)).
  { unfold usable. apply List.filter_In. split; [|done].
    apply List.filter_In. done. }
  destruct (usable fam now slot) as [|first rest]; [done|]. eauto.
Qed.

Lemma filter_project_wanted f l :
  Forall (fun a => wanted (Only f) a = true) l →
  List.filter (ai_has_family f) (map project l) = map project l.
Proof.
  induction 1 as [|a l Ha _ IH]; cbn [map List.filter]; [done|].
  unfold ai_has_family at 1. cbn [project ai_family].
  simpl in Ha. unfold has_family in Ha. by rewrite Ha, IH.
Qed.

(** Shaping a non-empty list of records of the wanted family creates no
    error object. *)
Lemma deliver_wanted c first rest m :
  Forall (fun a => wanted (c_family c) a = true) (first :: rest) →
  deliver c (Throttle.Resolved (Some (first :: rest))) m
  = (Fulfilled (if c_all c then Addresses (map project (first :: rest))
                else Address (address first)), m).
Proof.
  intros Hw. unfold deliver, shape.
  destruct (c_all c), (c_family c) as [|f]; try done.
  - by rewrite filter_project_wanted.
  - cbn [map List.find]. unfold ai_has_family. cbn [project ai_family].
    inversion Hw as [|? ? Hf _]; subst. simpl in Hf. unfold has_family in Hf.
    by rewrite Hf.
Qed.

Section CacheFacts.

Variable isIP : string -> option Family.

Lemma lookup_hit σ c now first rest :
  isIP (c_hostname c) = None →
  cache_probe (c_hostname c) (c_family c) (timestamp now) (Cache (mem σ))
  = Some (first :: rest) →
  lookup isIP c now σ
  = settle c
      (Fulfilled (if c_all c then Addresses (map project (first :: rest))
                  else Address (address first))) σ.
Proof.
  intros Hip Hp. unfold lookup. rewrite Hip, Hp. unfold settle_from.
  rewrite deliver_wanted.
  - by destruct σ.
  - rewrite cache_probe_usable in Hp.
    destruct (Cache (mem σ) !! c_hostname c) as [slot|]; [|done].
    pose proof (usable_wanted (c_family c) (timestamp now) slot) as Hw.
    destruct (usable (c_family c) (timestamp now) slot); [done|].
    by injection Hp as <- <-.
Qed.

(** C8. When the cache entry of the host holds a live record of the
    requested family, the call settles its promise and changes nothing
    else: no query leaves, the registry of the throttle, the suspended
    works and the cache are as before; the answer is made of the live
    records of that family in the entry. *)
Theorem lookup_cache_hit_is_silent σ c now slot a :
  Cache (mem σ) !! c_hostname c = Some slot →
  In a slot →
  live (timestamp now) a = true →
  wanted (c_family c) a = true →
  ∃ ans,
    lookup isIP c now σ = settle c (Fulfilled ans) σ
    ∧ queries (mem (lookup isIP c now σ)) = queries (mem σ)
    ∧ Cache (mem (lookup isIP c now σ)) = Cache (mem σ)
    ∧ registry (lookup isIP c now σ) = registry σ
    ∧ works (lookup isIP c now σ) = works σ
    ∧ immediates (lookup isIP c now σ) = immediates σ
    ∧ (isIP (c_hostname c) = None →
       ∃ first rest,
         usable (c_family c) (timestamp now) slot = first :: rest
         ∧ ans = if c_all c then Addresses (map project (first :: rest))
                 else Address (address first)).
Proof.
  intros Hs Hin Hl Hw.
  destruct (usable_inhabited _ _ _ _ Hin Hl Hw) as (first & rest & Hu).
  destruct (isIP (c_hostname c)) as [fam|] eqn:Hip.
  - eexists. unfold lookup. rewrite Hip. split; [reflexivity|].
    repeat split; done.
  - eexists. rewrite (lookup_hit σ c now first rest); [|done|].
    + split; [reflexivity|]. repeat split; eauto.
    + rewrite cache_probe_usable, Hs, Hu. done.
Qed.

(** C6, as amended. With no family asked for and [all] unset, a call
    for a host with live records of both families in the cache answers
    with the address of the first live record of the entry, in the order
    of the entry, whatever its family. *)
Theorem lookup_any_answers_first_live σ c now slot a4 a6 :
  isIP (c_hostname c) = None →
  c_family c = Unspec →
  c_all c = false →
  Cache (mem σ) !! c_hostname c = Some slot →
  In a4 slot → family a4 = IPV4 → live (timestamp now) a4 = true →
  In a6 slot → family a6 = IPV6 → live (timestamp now) a6 = true →
  ∃ first rest,
    List.filter (live (timestamp now)) slot = first :: rest
    ∧ lookup isIP c now σ = settle c (Fulfilled (Address (address first))) σ.
Proof.
  intros Hip Hf Hall Hs Hin4 _ Hl4 _ _ _.
  destruct (usable_inhabited Unspec _ _ _ Hin4 Hl4 eq_refl)
    as (first & rest & Hu).
  exists first, rest. split.
  - unfold usable in Hu.
    change (wanted Unspec) with (fun _ : AddressInfoDetail => true) in Hu.
    by rewrite filter_true in Hu.
  - rewrite (lookup_hit σ c now first rest); [by rewrite Hall|done|].
    rewrite cache_probe_usable, Hs, Hf, Hu. done.
Qed.

End CacheFacts.

(** ** The event machine *)

Lemma settled_advance_thrown c e m σ t :
  Throttle.tasks (registry σ) !! key_of c = Some t →
  settled (advance c false (Thrown e, m) σ) = settled σ ++ [(c_id c, Failed e)]
  ∧ mem (advance c false (Thrown e, m) σ) = m.
Proof.
  intros Ht. unfold advance, finish. cbn [fst snd].
  fold (key_of c). cbn [registry set_works set_mem]. rewrite Ht.
  unfold Throttle.complete. cbn. done.
Qed.

Lemma settled_advance_returned c l m σ t :
  Throttle.tasks (registry σ) !! key_of c = Some t →
  settled (advance c false (Returned l, m) σ)
  = settled σ ++ [(c_id c, (shape c (map project l) m).1)].
Proof.
  intros Ht. unfold advance, finish. cbn [fst snd].
  fold (key_of c). cbn [registry set_works set_mem]. rewrite Ht.
  unfold Throttle.complete. cbn [Throttle.locals_of Throttle.verdict].
  unfold settle_from, deliver.
  cbn [mem set_immediates set_task set_registry set_works set_mem].
  by destruct (shape c (map project l) m).
Qed.

Section MachineFacts.

Variable isIP : string -> option Family.

(** A call that misses the cache and leads starts the work. *)
Lemma lookup_leader σ c now :
  isIP (c_hostname c) = None →
  cache_probe (c_hostname c) (c_family c) (timestamp now) (Cache (mem σ))
  = None →
  leads c now σ →
  ∃ σ1 t1,
    lookup isIP c now σ
    = advance c false (start (c_hostname c) (c_family c) (mem σ)) σ1
    ∧ mem σ1 = mem σ ∧ works σ1 = works σ ∧ settled σ1 = settled σ
    ∧ immediates σ1 = immediates σ
    ∧ Throttle.tasks (registry σ1) !! key_of c = Some t1
    ∧ Throttle.cache t1 = None.
Proof.
  intros Hip Hp Hl. unfold lookup. rewrite Hip, Hp.
  unfold Throttle.useThrottle. change (DEFAULT_TTL <? 1) with false. cbv iota.
  fold (key_of c). unfold leads, task_for in Hl.
  destruct (Throttle.tasks (registry σ) !! key_of c) as [t|] eqn:Et;
    cbn [Throttle.tasks default] in *; rewrite ?Et, ?lookup_insert_eq;
    destruct (Throttle.throttle truthy now c _) as [t' en] eqn:Eth;
    cbn [snd] in Hl; subst en;
    (eexists _, t'; split; [reflexivity|]);
    apply ThrottleFacts.throttle_dispatched in Eth; subst t';
    cbn; rewrite lookup_insert_eq; repeat split; done.
Qed.

(** A work of a call for any family, suspended in [updateV4] of the main
    path: when the A query and then the AAAA query fail, the promise of
    its caller is rejected with a new object made of
    [aggregated hostname]. *)
Lemma work_both_fail σ1 c w1 t1 d4 now4 d6 now6 :
  works σ1 !! c_id c = Some (c, false, w1) →
  w_phase w1 = AwaitA → w_family w1 = Unspec →
  w_hostname w1 = c_hostname c → w_err6 w1 = None →
  Throttle.tasks (registry σ1) !! key_of c = Some t1 →
  let σ2 := step isIP (EResolve4 (c_id c) (inr d4) now4) σ1 in
  let σ3 := step isIP (EResolve6 (c_id c) (inr d6) now6) σ2 in
  let n := next_id (mem σ1) in
  (∃ w, works σ2 !! c_id c = Some (c, false, w)
        ∧ w_err4 w = Some {| e_id := n; e_data := d4 |}
        ∧ w_err6 w = None ∧ w_phase w = AwaitAAAA)
  ∧ next_id (mem σ2) = S n
  ∧ settled σ3
    = settled σ1
      ++ [(c_id c, Failed {| e_id := S (S n);
                             e_data := aggregated (c_hostname c) |})]
  ∧ queries (mem σ3) = queries (mem σ1) ++ [Resolve6 (c_hostname c)].
Proof.
  intros Hw Hph Hf Hh H6 Ht σ2 σ3 n.
  destruct w1 as [h f res err4 err6 upd ph]. cbn in Hph, Hf, Hh, H6.
  subst h f err6 ph.
  set (e4 := {| e_id := n; e_data := d4 |}).
  set (w2 := {| w_hostname := c_hostname c; w_family := Unspec;
                w_result := res; w_err4 := Some e4; w_err6 := None;
                w_v4updated := upd; w_phase := AwaitAAAA |}).
  set (m2 := {| Cache := Cache (mem σ1); HostsConfig := HostsConfig (mem σ1);
                next_id := S n;
                queries := queries (mem σ1) ++ [Resolve6 (c_hostname c)] |}).
  assert (E2 : σ2 = set_works (<[c_id c := (c, false, w2)]> (works σ1))
                      (set_mem m2 σ1)).
  { subst σ2. cbn [step]. rewrite Hw. reflexivity. }
  split; [|split].
  { exists w2. rewrite E2. cbn. by rewrite lookup_insert_eq. }
  { by rewrite E2. }
  set (agg := {| e_id := S (S n); e_data := aggregated (c_hostname c) |}).
  set (m3 := {| Cache := Cache (mem σ1); HostsConfig := HostsConfig (mem σ1);
                next_id := S (S (S n)); queries := queries m2 |}).
  assert (E3 : σ3 = advance c false (Thrown agg, m3) σ2).
  { subst σ3. cbn [step]. rewrite E2 at 1. cbn [works set_works].
    rewrite lookup_insert_eq. cbn [w_phase w2]. f_equal.
    rewrite E2. unfold resume_AAAA. cbn [alloc mem set_works set_mem].
    cbn [w_family w2]. change (bool_decide (Unspec = Only IPV6)) with false.
    rewrite andb_false_r. reflexivity. }
  assert (Ht2 : Throttle.tasks (registry σ2) !! key_of c = Some t1).
  { by rewrite E2. }
  destruct (settled_advance_thrown c agg m3 σ2 t1 Ht2) as [Hs3 Hm3].
  rewrite <- E3 in Hs3, Hm3. split.
  - rewrite Hs3, E2. reflexivity.
  - rewrite Hm3. reflexivity.
Qed.

(** C7. A call with no family asked for that misses the cache and leads
    its throttle: when the A query and then the AAAA query fail, the
    promise is rejected once, with a new [Error] whose message is
    "queryA and queryAaaa ENODATA " followed by the host name, whose
    [code] is "ENODATA", whose [hostname] is the host name and whose
    [errno] and [syscall] are unset, whatever the two family errors
    hold; it is neither of them. *)
Theorem lookup_both_fail_aggregated σ c now table d4 now4 d6 now6 :
  isIP (c_hostname c) = None →
  c_family c = Unspec →
  cache_probe (c_hostname c) (c_family c) (timestamp now) (Cache (mem σ))
  = None →
  leads c now σ →
  let σ2 :=
    run isIP
      (ELookup c now
       :: hosts_arrival σ (c_id c) table
       ++ [EResolve4 (c_id c) (inr d4) now4]) σ in
  let σ3 := step isIP (EResolve6 (c_id c) (inr d6) now6) σ2 in
  let e4 := {| e_id := next_id (mem σ); e_data := d4 |} in
  let e6 := (alloc d6 (mem σ2)).1 in
  let agg :=
    {| e_id := S (S (next_id (mem σ)));
       e_data :=
         {| e_class := ErrorC;
            e_message := "queryA and queryAaaa ENODATA " +:+ c_hostname c;
            e_errno := None;
            e_code := Some "ENODATA";
            e_syscall := None;
            e_hostname := Some (c_hostname c) |} |} in
  (∃ w, works σ2 !! c_id c = Some (c, false, w)
        ∧ w_err4 w = Some e4 ∧ w_err6 w = None ∧ w_phase w = AwaitAAAA)
  ∧ e6 = {| e_id := S (next_id (mem σ)); e_data := d6 |}
  ∧ settled σ3 = settled σ ++ [(c_id c, Failed agg)]
  ∧ queries (mem σ3)
    = queries (mem σ) ++ hosts_calls σ
      ++ [Resolve4 (c_hostname c); Resolve6 (c_hostname c)]
  ∧ agg ≠ e4 ∧ agg ≠ e6 ∧ e_id agg ≠ e_id e4 ∧ e_id agg ≠ e_id e6.
Proof.
  intros Hip Hf Hp Hl σ2 σ3 e4 e6 agg.
  destruct (lookup_leader σ c now Hip Hp Hl)
    as (σ0 & t1 & Hlk & Hm & Hw & Hs & Hi & Ht & Hc).
  (* the state in which the A query is pending *)
  assert (E1 : ∃ σ1 w1,
             run isIP (ELookup c now :: hosts_arrival σ (c_id c) table) σ
             = σ1
             ∧ works σ1 !! c_id c = Some (c, false, w1)
             ∧ w_phase w1 = AwaitA ∧ w_family w1 = Unspec
             ∧ w_hostname w1 = c_hostname c ∧ w_err6 w1 = None
             ∧ Throttle.tasks (registry σ1) !! key_of c = Some t1
             ∧ next_id (mem σ1) = next_id (mem σ)
             ∧ settled σ1 = settled σ
             ∧ queries (mem σ1)
               = queries (mem σ) ++ hosts_calls σ
                 ++ [Resolve4 (c_hostname c)]).
  { unfold hosts_arrival, hosts_calls.
    destruct (HostsConfig (mem σ)) as [cfg|] eqn:Hh.
    - eexists _, _. split; [reflexivity|].
      cbn [run fold_left step]. rewrite Hlk. unfold start. rewrite Hh.
      unfold after_hosts. rewrite Hf. cbn. rewrite lookup_insert_eq, Hs.
      repeat split; done.
    - eexists _, _. split; [reflexivity|].
      cbn [run fold_left step]. rewrite Hlk. unfold start. rewrite Hh.
      cbn. rewrite lookup_insert_eq. cbn. unfold resume_hosts, after_hosts.
      cbn. rewrite Hf. cbn. rewrite lookup_insert_eq, Hs, <- app_assoc.
      repeat split; done. }
  destruct E1 as (σ1 & w1 & E1 & Hw1 & Hph & Hf1 & Hh1 & H61 & Ht1 & Hn & Hs1
                  & Hq1).
  assert (Eσ2 : σ2 = step isIP (EResolve4 (c_id c) (inr d4) now4) σ1).
  { subst σ2. unfold run in *. rewrite app_comm_cons, fold_left_app, E1.
    reflexivity. }
  destruct (work_both_fail σ1 c w1 t1 d4 now4 d6 now6 Hw1 Hph Hf1 Hh1 H61 Ht1)
    as (Hw2 & Hn2 & Hs3 & Hq3).
  rewrite <- Eσ2 in Hw2, Hn2, Hs3, Hq3. fold σ3 in Hs3, Hq3.
  rewrite Hn in Hw2, Hs3. rewrite Hn in Hn2.
  assert (E6 : e6 = {| e_id := S (next_id (mem σ)); e_data := d6 |}).
  { subst e6. unfold alloc. cbn [fst]. by rewrite Hn2. }
  split; [exact Hw2|]. split; [exact E6|]. split; [|split].
  - by rewrite Hs3, Hs1.
  - rewrite Hq3, Hq1. by rewrite <- !app_assoc.
  - rewrite E6. subst agg e4. cbn.
    repeat split; first [lia | intros [= Hid _]; lia].
Qed.

End MachineFacts.

Lemma lookup_both_fail_aggregated_witness :
  settled
    (run SampleIP.isIP
       [ELookup (caller 1 Unspec true) 1700000000000;
        EHosts 1 (inl {[ host := [override4] ]});
        EResolve4 1 (inr enodata_a) 1700000000040;
        EResolve6 1 (inr enodata_aaaa) 1700000000080]
       loaded)
  = [(1%nat,
      Failed
        {| e_id := 2;
           e_data :=
             {| e_class := ErrorC;
                e_message := "queryA and queryAaaa ENODATA example.test";
                e_errno := None;
                e_code := Some "ENODATA";
                e_syscall := None;
                e_hostname := Some "example.test" |} |})].
Proof.
  refine (proj1 (proj2 (proj2
    (lookup_both_fail_aggregated SampleIP.isIP loaded
       (caller 1 Unspec true) 1700000000000 {[ host := [override4] ]}
       enodata_a 1700000000040 enodata_aaaa 1700000000080 _ _ _ _)))).
  - vm_compute. reflexivity.
  - reflexivity.
  - vm_compute. reflexivity.
  - vm_compute. reflexivity.
Defined.

Lemma lookup_cache_hit_is_silent_witness :
  ∃ ans,
    lookup SampleIP.isIP (caller 1 (Only IPV4) false) 1700000100000 stale6
    = settle (caller 1 (Only IPV4) false) (Fulfilled ans) stale6
    ∧ ans = Address "198.51.100.7".
Proof.
  destruct (lookup_cache_hit_is_silent SampleIP.isIP stale6
              (caller 1 (Only IPV4) false) 1700000100000 [old6; kept4] kept4)
    as (ans & Hl & _ & _ & _ & _ & _ & Ha).
  - vm_compute. reflexivity.
  - right. left. reflexivity.
  - vm_compute. reflexivity.
  - reflexivity.
  - exists ans. split; [exact Hl|].
    destruct Ha as (first & rest & Hu & ->); [vm_compute; reflexivity|].
    vm_compute in Hu. injection Hu as <- <-. reflexivity.
Defined.

Lemma lookup_any_answers_first_live_witness :
  ∃ first rest,
    List.filter (live (timestamp 1700000002000)) [cached6; cached4]
    = first :: rest
    ∧ lookup SampleIP.isIP (caller 3 Unspec false) 1700000002000 both_live
      = settle (caller 3 Unspec false) (Fulfilled (Address (address first)))
          both_live.
Proof.
  apply (lookup_any_answers_first_live SampleIP.isIP both_live
           (caller 3 Unspec false) 1700000002000 [cached6; cached4]
           cached4 cached6).
  - vm_compute. reflexivity.
  - reflexivity.
  - reflexivity.
  - vm_compute. reflexivity.
  - right. left. reflexivity.
  - reflexivity.
  - vm_compute. reflexivity.
  - left. reflexivity.
  - reflexivity.
  - vm_compute. reflexivity.
Defined.

(** C6, the claim as stated fails: the entry of [host] holds a live IPv6
    record followed by a live IPv4 record (the state after a family-6 and
    then a family-4 request), and a request for any family with [all]
    unset is answered with the IPv6 address. *)
Lemma lookup_any_ipv4_first_counterexample :
  Cache (mem both_live) !! host = Some [cached6; cached4]
  ∧ live (timestamp 1700000002000) cached6 = true
  ∧ live (timestamp 1700000002000) cached4 = true
  ∧ answers 3
      (step SampleIP.isIP (ELookup (caller 3 Unspec false) 1700000002000)
         both_live)
    = [Fulfilled (Address "2001:db8::1")]
  ∧ address cached4 ≠ "2001:db8::1".
Proof. vm_compute. repeat split; congruence. Qed.


(** ** The synthesis of IPv6 records *)

Lemma filter_project_none l :
  Forall (fun a => family a = IPV4) l →
  List.filter (ai_has_family IPV6) (map project l) = [].
Proof.
  induction 1 as [|a l Ha _ IH]; cbn [map List.filter]; [done|].
  unfold ai_has_family at 1. cbn [project ai_family]. by rewrite Ha.
Qed.

(** C1. The override table maps the host to 203.0.113.5, the cache has no
    entry for it, and family 6 is asked for with [all]; the AAAA query
    fails with ENODATA. Whatever the A query then answers, the promise is
    not fulfilled with the mapped record ::ffff:203.0.113.5: with A
    records the answer is the empty list, with an A failure the promise is
    rejected with the error of the AAAA query. *)
Theorem synthesis_answers_no_mapped_record (ans4 : DnsAnswer) (now4 : Z) :
  let σ :=
    run SampleIP.isIP
      [ELookup (caller 1 (Only IPV6) true) 1700000000000;
       EResolve6 1 (inr enodata_aaaa) 1700000000040;
       EResolve4 1 ans4 now4]
      overridden in
  answers 1 σ
  = [match ans4 with
     | inl _ => Fulfilled (Addresses [])
     | inr _ => Failed {| e_id := 0; e_data := enodata_aaaa |}
     end]
  ∧ answers 1 σ
    ≠ [Fulfilled (Addresses [{| ai_address := "::ffff:203.0.113.5";
                                ai_family := IPV6 |}])].
Proof.
  intros σ.
  assert (Ha : answers 1 σ
               = [match ans4 with
                  | inl _ => Fulfilled (Addresses [])
                  | inr _ => Failed {| e_id := 0; e_data := enodata_aaaa |}
                  end]);
    [|split; [exact Ha|rewrite Ha; by destruct ans4]].
  subst σ. unfold run. cbn [fold_left].
  set (c := caller 1 (Only IPV6) true).
  set (σ2 := step _ (EResolve6 _ _ _) _).
  set (e6 := {| e_id := 0; e_data := enodata_aaaa |}).
  set (w2 := {| w_hostname := host; w_family := Only IPV6;
                w_result := InHosts; w_err4 := None; w_err6 := None;
                w_v4updated := true; w_phase := AwaitASynth e6 |}).
  set (m2 := {| Cache := ∅; HostsConfig := Some {[ host := [override4] ]};
                next_id := 1; queries := [Resolve6 host; Resolve4 host] |}).
  assert (F1 : works σ2 !! 1%nat = Some (c, false, w2))
    by (vm_compute; reflexivity).
  assert (F2 : mem σ2 = m2) by (vm_compute; reflexivity).
  assert (F3 : Throttle.tasks (registry σ2) !! key_of c = Some in_flight)
    by (vm_compute; reflexivity).
  assert (F4 : settled σ2 = []) by (vm_compute; reflexivity).
  cbn [step]. rewrite F1. cbn [w_phase w2]. rewrite F2.
  clearbody σ2.
  destruct ans4 as [records|d4].
  - set (v4 := map (stamp IPV4 (timestamp now4)) records).
    assert (E : ∃ m', resume_ASynth e6 (inl records) now4 w2 m2
                      = (Returned (override4 :: v4), m')).
    { eexists. unfold resume_ASynth, updateV4_settle, push.
      cbn [w_result w2 set_Cache set_HostsConfig Cache HostsConfig m2 fmap
           option_fmap option_map w_hostname].
      fold v4. unfold cache_write_v4. rewrite lookup_empty.
      unfold synth_tail, synthesize.
      cbn [w_hostname w2 Cache set_Cache]. rewrite lookup_insert_eq.
      unfold conclude, deref. cbn. rewrite lookup_alter_eq.
      unfold host. rewrite lookup_insert_eq. reflexivity. }
    destruct E as [m' ->].
    unfold answers. rewrite (settled_advance_returned c _ m' σ2 in_flight F3).
    rewrite F4. cbn [app List.filter fst snd c_id c caller Nat.eqb map].
    unfold shape. cbn [c_all c_family c caller fst].
    change (map project (override4 :: v4)) with (project override4 :: map project v4).
    cbn [List.filter]. change (ai_has_family IPV6 (project override4)) with false.
    cbv iota. rewrite filter_project_none; [done|]. apply stamp_family.
  - assert (E : ∃ m', resume_ASynth e6 (inr d4) now4 w2 m2 = (Thrown e6, m')).
    { eexists. unfold resume_ASynth, updateV4_settle, synth_tail, synthesize.
      cbn. rewrite lookup_empty. reflexivity. }
    destruct E as [m' ->].
    unfold answers.
    rewrite (proj1 (settled_advance_thrown c e6 m' σ2 in_flight F3)), F4.
    reflexivity.
Qed.

(** ** Waiters on the machine *)

Section WaiterFacts.

Variable isIP : string -> option Family.


End WaiterFacts.

(** Two calls for the same host, family and [all], one millisecond apart,
    with nothing cached: the second is queued, one A query leaves, and
    both promises are fulfilled with the same list. *)
Example back_to_back_calls :
  let σ :=
    run SampleIP.isIP
      [ELookup (caller 1 (Only IPV4) true) 1700000000000;
       ELookup (caller 2 (Only IPV4) true) 1700000000001;
       EHosts 1 (inl ∅);
       EResolve4 1 (inl [{| rr_address := "198.51.100.7"; rr_ttl := 300 |}])
         1700000000040;
       EImmediate]
      loaded in
  queries (mem σ) = [CallHostsThrottle; Resolve4 host]
  ∧ answers 1 σ
    = [Fulfilled (Addresses [{| ai_address := "198.51.100.7";
                                ai_family := IPV4 |}])]
  ∧ answers 2 σ = answers 1 σ.
Proof. vm_compute. repeat split. Qed.

(** A failed work is replayed to a later identical call within the
    interval: no second query leaves and the same error object comes
    back. *)
Example failure_is_replayed :
  let σ :=
    run SampleIP.isIP
      [ELookup (caller 1 (Only IPV4) true) 1700000000000;
       EResolve4 1 (inr enodata_a) 1700000000040;
       EImmediate;
       ELookup (caller 2 (Only IPV4) true) 1700000005000]
      overridden in
  queries (mem σ) = [Resolve4 host]
  ∧ answers 1 σ = [Failed {| e_id := 0; e_data := enodata_a |}]
  ∧ answers 2 σ = answers 1 σ.
Proof. vm_compute. repeat split. Qed.

(** * Further properties *)

(** ** The throttle: registration, sweep, expiry and background runs *)

Module ThrottleMore.
Import Throttle.

Section Facts.

Context {R E J : Type}.
Variable truthy : E -> bool.

Implicit Types (t : ThrottleTask R E J) (r : R + E) (job : J).

(** A call within the interval of a task with a cached outcome
    replays it. *)
Lemma replay_within t (c : Cached R E) now job :
  cache t = Some c →
  now - lastActive t < interval t →
  throttle truthy now job t = (t, Served (replay truthy c)).
Proof.
  intros Hc Hlt. unfold throttle.
  destruct (now - lastActive t >=? interval t) eqn:Eg.
  - apply Z.geb_le in Eg. lia.
  - by rewrite Hc.
Qed.

(** X1. [useThrottle] registers a task once: a later call for the same
    resource, whatever interval and mode it passes, changes nothing and
    designates the task of the first call; tasks of other resources are
    never touched. *)
Theorem useThrottle_first_use_wins (resource : string)
    (i1 i2 : Z) (b1 b2 : bool) (reg : Registry R E J) :
  1 ≤ i1 → 1 ≤ i2 →
  let reg1 := (useThrottle resource i1 b1 reg).1 in
  useThrottle resource i2 b2 reg1 = (reg1, Func resource)
  ∧ tasks reg1 !! resource
    = Some (default (createThrottleTask i1 b1) (tasks reg !! resource))
  ∧ ∀ other, other ≠ resource → tasks reg1 !! other = tasks reg !! other.
Proof.
  intros H1 H2 reg1. subst reg1. unfold useThrottle.
  destruct (i1 <? 1) eqn:E1; [apply Z.ltb_lt in E1; lia|].
  destruct (i2 <? 1) eqn:E2; [apply Z.ltb_lt in E2; lia|].
  cbn [fst tasks].
  destruct (tasks reg !! resource) as [t|] eqn:Et.
  - rewrite Et. split; [done|]. split; done.
  - rewrite lookup_insert_eq. split; [done|]. split; [done|].
    intros other Hne. by rewrite lookup_insert_ne.
Qed.

Lemma gc_lookup (reg : Registry R E J) key t now :
  tasks (gc now reg) !! key = Some t
  ↔ tasks reg !! key = Some t
    ∧ now - lastActive t ≤ Z.max (interval t + 5) gcInterval.
Proof.
  unfold gc. cbn [tasks]. rewrite map_lookup_filter_Some. cbn.
  split; intros [Hk Hn]; (split; [done|lia]).
Qed.

(** X2. The sweep against the throttle window. A task whose interval
    has not elapsed is never collected, so neither an outcome that
    would still be replayed nor the jobs queued behind a leader within
    its window are dropped by the sweep. A task with an interval of at
    most 29995 ms, as the 10000 ms of [lookup], is collected exactly
    when it has been idle for more than 30000 ms; a task with a longer
    interval exactly when it has been idle for more than its interval
    plus 5 ms. The sweep only removes tasks, and a second sweep at the
    same time removes nothing more. *)
Theorem gc_sweeps_idle_tasks (reg : Registry R E J) now :
  (∀ key t, tasks reg !! key = Some t →
     now - lastActive t < interval t →
     tasks (gc now reg) !! key = Some t)
  ∧ (∀ key t, tasks reg !! key = Some t →
       interval t ≤ 29995 →
       (tasks (gc now reg) !! key = None ↔ 30000 < now - lastActive t))
  ∧ (∀ key t, tasks reg !! key = Some t →
       29995 ≤ interval t →
       (tasks (gc now reg) !! key = None
        ↔ interval t + 5 < now - lastActive t))
  ∧ (∀ key, tasks reg !! key = None → tasks (gc now reg) !! key = None)
  ∧ (∀ key t, tasks (gc now reg) !! key = Some t →
       tasks reg !! key = Some t)
  ∧ gc now (gc now reg) = gc now reg.
Proof.
  assert (Hnone : ∀ key t, tasks reg !! key = Some t →
            (tasks (gc now reg) !! key = None
             ↔ Z.max (interval t + 5) 30000 < now - lastActive t)).
  { intros key t Ht. split.
    - intros Hn.
      destruct (Z.lt_ge_cases (Z.max (interval t + 5) 30000)
                  (now - lastActive t)) as [|Hle]; [done|].
      assert (tasks (gc now reg) !! key = Some t) as Hs
        by (apply gc_lookup; split; [done|exact Hle]).
      congruence.
    - intros Hlt. destruct (tasks (gc now reg) !! key) as [t'|] eqn:Hg;
        [|done].
      apply gc_lookup in Hg as [Ht' Hle].
      assert (t' = t) as -> by congruence.
      change gcInterval with 30000 in Hle. lia. }
  split; [|split; [|split; [|split; [|split]]]].
  - intros key t Ht Hin. apply gc_lookup. split; [done|].
    change gcInterval with 30000. lia.
  - intros key t Ht Hi. rewrite (Hnone key t Ht). lia.
  - intros key t Ht Hi. rewrite (Hnone key t Ht). lia.
  - intros key Hk. destruct (tasks (gc now reg) !! key) as [t|] eqn:Hg;
      [|done].
    apply gc_lookup in Hg as [Ht _]. congruence.
  - intros key t Hg. by apply gc_lookup in Hg as [Ht _].
  - unfold gc at 1. destruct (gc now reg) as [g ts] eqn:Eg.
    cbn [gcTimer tasks]. f_equal. apply map_eq. intros key.
    assert (Hts : ts = tasks (gc now reg)) by by rewrite Eg.
    destruct (ts !! key) as [t|] eqn:Hk.
    + apply map_lookup_filter_Some. split; [done|].
      rewrite Hts in Hk. apply gc_lookup in Hk as [_ Hle].
      cbn. lia.
    + apply map_lookup_filter_None. left. done.
Qed.



(** X5. Background mode serves stale outcomes while it refreshes: once
    the interval has elapsed on a task with a cached outcome, a call
    invokes the work. When the invocation returns (a value or a
    promise), the call is answered with the cached outcome at once;
    when it throws, the call is rejected with the thrown value. Either
    way the cache is kept and [lastActive] advanced: calls within the
    new interval, whatever their work, get the old outcome without
    invoking it, until the background run settles, and its outcome
    from then on. *)
Theorem throttle_background_refresh t (c : Cached R E) (h h' : Invoked E)
    now job r now' job' :
  backgroundUpdate t = true →
  cache t = Some c →
  interval t ≤ now - lastActive t →
  now' - now < interval t →
  ∃ t1,
    throttle_invoking truthy h now job t
    = (t1, DispatchedBg match h with
                        | Returns => replay truthy c
                        | Throws e => Rejected e
                        end)
    ∧ queue t1 = queue t ∧ cache t1 = Some c ∧ lastActive t1 = now
    ∧ interval t1 = interval t
    ∧ throttle_invoking truthy h' now' job' t1
      = (t1, Served (replay truthy c))
    ∧ throttle_invoking truthy h' now' job' (complete_bg r t1)
      = (complete_bg r t1, Served (replay truthy (cached_of r))).
Proof.
  intros Hbg Hc Hexp Hin. unfold throttle_invoking at 1. unfold throttle.
  rewrite (proj2 (Z.geb_le _ _) Hexp).
  rewrite Hbg, Hc. eexists. split; [by destruct h|].
  split; [done|]. split; [done|]. split; [done|]. split; [done|].
  split.
  - unfold throttle_invoking. rewrite (replay_within _ c) by done.
    by destruct h'.
  - unfold throttle_invoking.
    rewrite (replay_within _ (cached_of r)) by done.
    by destruct h'.
Qed.

(** X6. A work that throws a falsy value is not reported as failed:
    its leader and every queued job are resolved with [undefined], and
    so is every call that replays the cached outcome. *)
Theorem throttle_falsy_error_resolves t (e : E) :
  truthy e = false →
  (complete truthy (inr e) t).2 = Resolved None
  ∧ (drain truthy (complete truthy (inr e) t).1.2
       (complete truthy (inr e) t).1.1).2
    = map (fun j => (j, Resolved None)) (queue t)
  ∧ (∀ now job,
       now - lastActive t < interval t →
       throttle truthy now job (complete truthy (inr e) t).1.1
       = ((complete truthy (inr e) t).1.1, Served (Resolved None))).
Proof.
  intros He. cbn. unfold verdict. rewrite He. repeat split.
  intros now job Hin.
  rewrite (replay_within _ (cached_of (inr e))); [|done|done].
  unfold replay, verdict. cbn. by rewrite He.
Qed.

End Facts.

End ThrottleMore.

(** ** The override table: names, comments, order *)

Lemma cons_head_no_space c l :
  JS.is_space c = false → Forall (fun t => no_space t = true) l →
  Forall (fun t => no_space t = true) (JS.cons_head c l).
Proof.
  intros Hc Hl. destruct l as [|x xs]; cbn.
  - constructor; [|done]. cbn. by rewrite Hc.
  - inversion Hl; subst. constructor; [|done]. cbn. by rewrite Hc.
Qed.

Lemma split_ws_no_space b s :
  Forall (fun t => no_space t = true) (JS.split_ws_from b s).
Proof.
  revert b. induction s as [|c r IH]; intros b; cbn.
  - by constructor.
  - destruct (JS.is_space c) eqn:Ec.
    + destruct b; [apply IH|constructor; [done|apply IH]].
    + by apply cons_head_no_space.
Qed.

Lemma ends_nonspace_cons c r :
  r ≠ EmptyString → ends_nonspace (String c r) = ends_nonspace r.
Proof. by destruct r. Qed.

(** Tokens of a string that ends with a visible character: all but the
    first are non-empty, and the first is too after a separator. *)
Lemma split_ws_tail_nonempty b s :
  ends_nonspace s = true →
  ∃ h t, JS.split_ws_from b s = h :: t
         ∧ Forall (fun x => x ≠ EmptyString) t
         ∧ (b = true → h ≠ EmptyString).
Proof.
  revert b. induction s as [|c r IH]; intros b He; [done|].
  destruct (String.eqb_spec r EmptyString) as [->|Hne].
  - cbn in He. apply negb_true_iff in He. cbn. rewrite He. cbn.
    eexists _, _. split; [reflexivity|]. split; [constructor|done].
  - rewrite ends_nonspace_cons in He by done.
    cbn [JS.split_ws_from]. destruct (JS.is_space c) eqn:Ec.
    + destruct b.
      * apply IH, He.
      * destruct (IH true He) as (h & t & -> & Ht & Hh).
        eexists _, _. split; [reflexivity|]. split; [|done].
        constructor; [by apply Hh|done].
    + destruct (IH false He) as (h & t & Hs & Ht & _).
      rewrite Hs. cbn. eexists _, _. split; [reflexivity|]. split; done.
Qed.

Lemma trimEnd_ends s :
  JS.trimEnd s = EmptyString ∨ ends_nonspace (JS.trimEnd s) = true.
Proof.
  induction s as [|c r IH]; cbn; [by left|].
  destruct (JS.trimEnd r) as [|d r'] eqn:Er.
  - destruct (JS.is_space c) eqn:Ec; [by left|right]. cbn. by rewrite Ec.
  - right. destruct IH as [IH|IH]; [done|]. exact IH.
Qed.

(** The aliases of a line of the file are non-empty and free of white
    space. *)
Lemma hosts_lines_aliases hostFile :
  Forall (fun segments =>
            Forall (fun x => x ≠ EmptyString ∧ no_space x = true)
              (tl segments))
    (hosts_lines hostFile).
Proof.
  unfold hosts_lines. apply Forall_forall. intros segs Hin.
  apply list_elem_of_In, in_map_iff in Hin as (line & <- & Hin).
  apply List.filter_In in Hin as [Hin _].
  apply in_map_iff in Hin as (raw & <- & _).
  unfold JS.split_ws, JS.trim.
  pose proof (split_ws_no_space false (JS.trimEnd (JS.trimStart raw))) as Hns.
  destruct (trimEnd_ends (JS.trimStart raw)) as [->|He]; [by constructor|].
  destruct (split_ws_tail_nonempty false _ He) as (h & t & Hs & Ht & _).
  rewrite Hs in *. cbn. inversion Hns; subst.
  apply Forall_forall. intros x Hx. split.
  - by eapply Forall_forall in Ht.
  - by eapply (proj1 (Forall_forall _ _)) in Hx; [|eassumption].
Qed.

Section HostsMore.

Variable isIP : string -> option Family.

Lemma push_record_well_named configs h r :
  well_named configs → clean_name h = true →
  well_named (push_record configs h r).
Proof.
  intros Hc Hh h' l'. unfold push_record.
  destruct (configs !! h) as [l|] eqn:Eh;
    (destruct (decide (h = h')) as [->|Hne];
     [rewrite lookup_insert_eq; intros [= <-]; split; [done|]
     |rewrite lookup_insert_ne by done; apply Hc]).
  - by destruct l.
  - done.
Qed.

Lemma add_aliases_well_named addr exp aliases configs :
  Forall (fun x => x ≠ EmptyString ∧ no_space x = true) aliases →
  well_named configs →
  well_named (add_aliases isIP addr exp aliases configs).
Proof.
  intros Ha. revert configs.
  induction Ha as [|a rest [Hne Hns] _ IH]; intros configs Hc; cbn; [done|].
  destruct (JS.startsWith "#" a) eqn:Es; [done|].
  destruct (isIP addr); [|by apply IH].
  apply IH, push_record_well_named; [done|].
  unfold clean_name. rewrite Hns, Es.
  destruct (String.eqb_spec a ""); done.
Qed.

(** X7. Every host name of a loaded override table is a non-empty token
    without white space that does not start with the comment mark, and
    its list of records is not empty. *)
Theorem loadHostsConfig_names_clean hostFile now_ms hostname records :
  loadHostsConfig isIP hostFile now_ms !! hostname = Some records →
  clean_name hostname = true ∧ records ≠ [].
Proof.
  unfold loadHostsConfig, parse_lines.
  pose proof (hosts_lines_aliases hostFile) as Hl.
  assert (Hgen : ∀ lines configs,
             Forall (fun segments =>
                       Forall (fun x => x ≠ EmptyString ∧ no_space x = true)
                         (tl segments)) lines →
             well_named configs →
             well_named (fold_left (add_line isIP (timestamp now_ms + MIN_TTL_SEC))
                           lines configs)).
  { clear. induction lines as [|l lines IH]; intros configs Hl Hc; cbn.
    - done.
    - inversion Hl as [|? ? Hseg Hrest]; subst. apply IH; [done|].
      destruct l as [|addr aliases]; cbn; [done|].
      by apply add_aliases_well_named. }
  apply Hgen; [done|]. intros h l. by rewrite lookup_empty.
Qed.

(** X8. In a line, the tokens from the first one that starts with the
    comment mark on are ignored: the line adds what its tokens before
    the mark add. *)
Theorem add_line_stops_at_comment exp configs addr before mark after :
  JS.startsWith "#" mark = true →
  add_line isIP exp configs (addr :: before ++ mark :: after)
  = add_line isIP exp configs (addr :: before).
Proof.
  intros Hm. cbn [add_line]. revert configs.
  induction before as [|a rest IH]; intros configs; cbn.
  - by rewrite Hm.
  - destruct (JS.startsWith "#" a); [done|].
    destruct (isIP addr); apply IH.
Qed.

Lemma entries_empty h : entries ∅ h = [].
Proof. unfold entries. by rewrite lookup_empty. Qed.

Lemma entries_push_record configs a r h :
  entries (push_record configs a r) h
  = entries configs h ++ (if decide (a = h) then [r] else []).
Proof.
  unfold entries, push_record.
  destruct (configs !! a) as [l|] eqn:Ea;
    (destruct (decide (a = h)) as [->|Hne];
     [rewrite lookup_insert_eq, ?Ea
     |rewrite lookup_insert_ne by done; by rewrite app_nil_r]); done.
Qed.

Lemma entries_add_aliases addr exp aliases configs h :
  entries (add_aliases isIP addr exp aliases configs) h
  = entries configs h ++ entries (add_aliases isIP addr exp aliases ∅) h.
Proof.
  revert configs. induction aliases as [|a rest IH]; intros configs; cbn.
  - by rewrite entries_empty, app_nil_r.
  - destruct (JS.startsWith "#" a).
    { by rewrite entries_empty, app_nil_r. }
    destruct (isIP addr) as [fam|]; [|apply IH].
    rewrite IH, (IH (push_record ∅ a _)), !entries_push_record.
    by rewrite entries_empty, app_assoc.
Qed.

Lemma entries_fold exp lines configs h :
  entries (fold_left (add_line isIP exp) lines configs) h
  = entries configs h ++ entries (fold_left (add_line isIP exp) lines ∅) h.
Proof.
  revert configs. induction lines as [|l lines IH]; intros configs; cbn.
  - by rewrite entries_empty, app_nil_r.
  - rewrite IH, (IH (add_line isIP exp ∅ l)).
    destruct l as [|addr aliases]; cbn [add_line].
    + by rewrite entries_empty.
    + rewrite entries_add_aliases. by rewrite app_assoc.
Qed.

(** X9. Lines accumulate in file order: the records of a host in the
    table of two runs of lines are its records from the first run
    followed by its records from the second; nothing is merged,
    replaced or deduplicated. *)
Theorem parse_lines_app exp lines1 lines2 hostname :
  entries (parse_lines isIP exp (lines1 ++ lines2)) hostname
  = entries (parse_lines isIP exp lines1) hostname
    ++ entries (parse_lines isIP exp lines2) hostname.
Proof.
  unfold parse_lines. rewrite fold_left_app. apply entries_fold.
Qed.

(** X10. A file whose lines are all blank or comments loads as the
    empty table. *)
Theorem loadHostsConfig_blank hostFile now_ms :
  Forall (fun line => blank_or_comment line = true)
    (JS.split_lines hostFile) →
  loadHostsConfig isIP hostFile now_ms = ∅.
Proof.
  intros Hall. unfold loadHostsConfig, parse_lines, hosts_lines.
  induction (JS.split_lines hostFile) as [|line lines IH]; [done|].
  inversion Hall as [|? ? Hb Hrest]; subst. cbn [map List.filter].
  unfold blank_or_comment in Hb.
  destruct (JS.startsWith "#" (JS.trim line)) eqn:Es; cbn [negb].
  - by apply IH.
  - rewrite orb_false_r in Hb. apply String.eqb_eq in Hb.
    cbn [map fold_left]. rewrite Hb. cbn. by apply IH.
Qed.

End HostsMore.

(** ** The clock *)

(** X11. [timestamp] is the number of whole seconds of [Date.now()] as
    long as that number fits 31 bits, that is before 19 January 2038; in
    the 2^31 seconds that follow, it is that number minus 2^32, a negative
    value; it always lies in the signed 32-bit range. *)
Theorem timestamp_range now_ms :
  - 2 ^ 31 ≤ timestamp now_ms < 2 ^ 31
  ∧ (0 ≤ now_ms < 2 ^ 31 * 1000 → timestamp now_ms = now_ms / 1000)
  ∧ (2 ^ 31 * 1000 ≤ now_ms < 2 ^ 32 * 1000 →
     timestamp now_ms = now_ms / 1000 - 2 ^ 32).
Proof.
  unfold timestamp, toInt32. split; [|split].
  - pose proof (Z.mod_pos_bound (now_ms ÷ 1000 + 2 ^ 31) (2 ^ 32)). lia.
  - intros H. rewrite Z.quot_div_nonneg by lia.
    assert (0 ≤ now_ms / 1000 < 2 ^ 31).
    { split; [apply Z.div_pos; lia|apply Z.div_lt_upper_bound; lia]. }
    rewrite Z.mod_small by lia. lia.
  - intros H. rewrite Z.quot_div_nonneg by lia.
    assert (2 ^ 31 ≤ now_ms / 1000 < 2 ^ 32).
    { split; [apply Z.div_le_lower_bound; lia|apply Z.div_lt_upper_bound; lia]. }
    replace (now_ms / 1000 + 2 ^ 31)
      with ((now_ms / 1000 - 2 ^ 31) + 1 * 2 ^ 32) by lia.
    rewrite Z.mod_add by lia. rewrite Z.mod_small by lia. lia.
Qed.

(** ** Cache reads and the synthesis write *)

(** X12. A read of the resolution cache answers only with a non-empty
    list, made of the unexpired records of the requested family of the
    host's entry, in the order of the entry; it answers nothing exactly
    when the entry has no such record or does not exist. *)
Theorem cache_probe_sound_complete hostname fam now (cache : CacheData) :
  (∀ l, cache_probe hostname fam now cache = Some l →
        l ≠ []
        ∧ ∃ slot, cache !! hostname = Some slot ∧ l = usable fam now slot
                  ∧ Forall (fun a => In a slot ∧ now < expireAt a
                                     ∧ wanted fam a = true) l)
  ∧ (cache_probe hostname fam now cache = None
     ↔ ∀ slot a, cache !! hostname = Some slot → In a slot →
                 now < expireAt a → wanted fam a = false).
Proof.
  rewrite cache_probe_usable. split.
  - intros l. destruct (cache !! hostname) as [slot|]; [|done].
    destruct (usable fam now slot) as [|a0 l0] eqn:Eu; [done|].
    intros [= <-]. split; [done|]. exists slot. split; [done|]. split; [done|].
    rewrite <- Eu. apply Forall_forall. intros a Ha.
    apply list_elem_of_In in Ha. unfold usable in Ha.
    apply List.filter_In in Ha as [Ha Hw].
    apply List.filter_In in Ha as [Ha Hl]. unfold live in Hl.
    repeat split; [done| |done]. apply Z.gtb_lt in Hl. lia.
  - destruct (cache !! hostname) as [slot|]; [|split; done].
    split.
    + destruct (usable fam now slot) eqn:Eu; [|done]. intros _ ? a [= <-] Ha Hl.
      destruct (wanted fam a) eqn:Ew; [|done].
      assert (Hin : In a (usable fam now slot)).
      { apply List.filter_In. split; [|done]. apply List.filter_In.
        split; [done|]. unfold live. apply Z.gtb_lt. lia. }
      by rewrite Eu in Hin.
    + intros H. destruct (usable fam now slot) as [|a l] eqn:Eu; [done|].
      assert (Hin : In a (usable fam now slot)) by (rewrite Eu; by left).
      apply List.filter_In in Hin as [Hin Hw].
      apply List.filter_In in Hin as [Hin Hl]. unfold live in Hl.
      apply Z.gtb_lt in Hl. rewrite (H slot a) in Hw; [done|done|done|lia].
Qed.

Lemma not_family_6_is_4 l :
  List.filter (not_family IPV6) l = List.filter (has_family IPV4) l.
Proof.
  apply List.filter_ext. intros a. unfold not_family, has_family.
  by destruct (family a).
Qed.

Lemma not_family_4_is_6 l :
  List.filter (not_family IPV4) l = List.filter (has_family IPV6) l.
Proof.
  apply List.filter_ext. intros a. unfold not_family, has_family.
  by destruct (family a).
Qed.

(** X13. The write of the synthesis maps the records of the entry that
    are not IPv4, that is its IPv6 records: the entry stored back is its
    IPv4 records, as they are, followed by one copy of each IPv6 record
    whose address is the old one prefixed with "::ffff:", whose family is
    6 and whose expiration is the old one. So every IPv6 record of the
    new entry is such a copy of an IPv6 record, none is made from an IPv4
    address, and an entry of IPv4 records only is stored back as it is.
    Without an entry for the host the write fails. *)
Theorem synthesize_maps_ipv6_records hostname (cache : CacheData) :
  (cache !! hostname = None → synthesize hostname cache = None)
  ∧ ∀ slot, cache !! hostname = Some slot →
      ∃ slot',
        synthesize hostname cache = Some (<[hostname := slot']> cache)
        ∧ slot'
          = List.filter (has_family IPV4) slot
            ++ map (fun a => {| address := "::ffff:" +:+ address a;
                                family := IPV6;
                                expireAt := expireAt a |})
                 (List.filter (has_family IPV6) slot)
        ∧ (∀ b, In b slot' → family b = IPV6 →
             ∃ a, In a slot ∧ family a = IPV6
                  ∧ address b = "::ffff:" +:+ address a
                  ∧ expireAt b = expireAt a)
        ∧ (∀ b, In b slot' → family b = IPV4 → In b slot)
        ∧ (Forall (fun a => family a = IPV4) slot → slot' = slot).
Proof.
  unfold synthesize. split; [by intros ->|]. intros slot ->.
  rewrite not_family_6_is_4, not_family_4_is_6.
  eexists. split; [reflexivity|]. split; [reflexivity|].
  split; [|split].
  - intros b Hb Hf. apply in_app_or in Hb as [Hb|Hb].
    + apply List.filter_In in Hb as [_ Hb]. unfold has_family in Hb.
      rewrite Hf in Hb. done.
    + apply in_map_iff in Hb as (a & <- & Ha).
      apply List.filter_In in Ha as [Ha Ha6]. exists a.
      unfold has_family in Ha6. split; [done|]. split; [|done].
      by destruct (family a).
  - intros b Hb Hf. apply in_app_or in Hb as [Hb|Hb].
    + by apply List.filter_In in Hb as [Hb _].
    + apply in_map_iff in Hb as (a & <- & _). done.
  - intros Hall. rewrite filter_has_family_all by done.
    rewrite (filter_has_family_none IPV4 IPV6 slot) by done.
    by rewrite app_nil_r.
Qed.

(** ** Whole lookups on the event machine *)

(** The end of a foreground work: its outcome is stored in the task, the
    drain is scheduled and the leader's promise settles. *)
Lemma advance_finished c r m σ t :
  Throttle.tasks (registry σ) !! key_of c = Some t →
  let σ' := advance c false (progress_of r, m) σ in
  let o := Throttle.verdict truthy (Throttle.locals_of r).1
             (Throttle.locals_of r).2 in
  settled σ' = settled σ ++ [(c_id c, (deliver c o m).1)]
  ∧ mem σ' = (deliver c o m).2
  ∧ works σ' = delete (c_id c) (works σ)
  ∧ immediates σ' = immediates σ ++ [(key_of c, Throttle.locals_of r)]
  ∧ Throttle.tasks (registry σ') !! key_of c
    = Some (Throttle.set_cache (Throttle.cached_of r) t).
Proof.
  intros Ht σ' o. subst σ' o. unfold advance, finish.
  destruct r as [l|e]; cbn [progress_of fst snd];
    fold (key_of c); cbn [registry set_works set_mem]; rewrite Ht;
    unfold Throttle.complete, settle_from;
    cbn [Throttle.locals_of Throttle.verdict truthy fst snd mem set_immediates
         set_task set_registry set_works set_mem];
    destruct (deliver c _ m) as [s m']; cbn; rewrite lookup_insert_eq; done.
Qed.


Lemma filter_project f l :
  List.filter (ai_has_family f) (map project l)
  = map project (List.filter (has_family f) l).
Proof.
  induction l as [|a l IH]; cbn [map List.filter]; [done|].
  change (ai_has_family f (project a)) with (has_family f a).
  destruct (has_family f a); cbn [map]; by rewrite IH.
Qed.

Lemma find_project f l :
  List.find (ai_has_family f) (map project l)
  = project <$> head (List.filter (has_family f) l).
Proof.
  induction l as [|a l IH]; cbn [map List.find List.filter]; [done|].
  change (ai_has_family f (project a)) with (has_family f a).
  by destruct (has_family f a).
Qed.

(** Shaping a list of records never fails for a call that asks for all
    addresses, and gives the first record of the wanted family to a call
    that asks for one. *)
Lemma shape_project c l m :
  (c_all c = true →
   shape c (map project l) m
   = (Fulfilled (Addresses (map project (List.filter (wanted (c_family c)) l))),
      m))
  ∧ (c_all c = false → ∀ a rest,
       List.filter (wanted (c_family c)) l = a :: rest →
       shape c (map project l) m = (Fulfilled (Address (address a)), m)).
Proof.
  unfold shape. split; intros ->.
  - destruct (c_family c) as [|f]; cbn [wanted].
    + change (fun a => wanted Unspec a) with (fun _ : AddressInfoDetail => true).
      by rewrite filter_true.
    + change (wanted (Only f)) with (has_family f). by rewrite filter_project.
  - intros a rest. destruct (c_family c) as [|f].
    + change (wanted Unspec) with (fun _ : AddressInfoDetail => true).
      rewrite filter_true. by intros ->.
    + change (wanted (Only f)) with (has_family f). intros Hf.
      by rewrite find_project, Hf.
Qed.

(** [result.push] extends the elements of [result]; through the override
    table when [result] is its array. *)
Lemma push_spec records w m :
  ref_ok w m →
  deref (push records w m).1 (push records w m).2 = deref w m ++ records
  ∧ ref_ok (push records w m).1 (push records w m).2
  ∧ Cache (push records w m).2 = Cache m
  ∧ next_id (push records w m).2 = next_id m
  ∧ queries (push records w m).2 = queries m
  ∧ w_hostname (push records w m).1 = w_hostname w
  ∧ w_family (push records w m).1 = w_family w
  ∧ w_err4 (push records w m).1 = w_err4 w
  ∧ w_err6 (push records w m).1 = w_err6 w
  ∧ w_phase (push records w m).1 = w_phase w
  ∧ w_v4updated (push records w m).1 = w_v4updated w.
Proof.
  intros Hok. unfold push, deref, ref_ok in *.
  destruct (w_result w) eqn:Er; cbn; rewrite ?Er.
  - destruct (Hok eq_refl) as [l Hl].
    destruct (HostsConfig m) as [table|]; [|done]. cbn in *.
    rewrite lookup_alter_eq, Hl. cbn. repeat split; eauto.
  - cbn. repeat split; done.
Qed.

(** Shaping an answer writes neither the cache nor the override table and
    sends nothing. *)
Lemma shape_mem c l m :
  Cache (shape c l m).2 = Cache m
  ∧ HostsConfig (shape c l m).2 = HostsConfig m
  ∧ queries (shape c l m).2 = queries m.
Proof.
  unfold shape.
  destruct (c_all c), (c_family c) as [|f]; cbn; try done.
  - by destruct l.
  - by destruct (List.find _ l).
Qed.

Lemma alter_present {A} (f : A → A) (m : gmap string A) k x :
  m !! k = Some x → alter f k m = <[k := f x]> m.
Proof.
  intros Hk. apply map_eq. intros i. destruct (decide (k = i)) as [->|Hne].
  - by rewrite lookup_alter_eq, lookup_insert_eq, Hk.
  - by rewrite lookup_alter_ne, lookup_insert_ne.
Qed.

Section MachineMore.

Variable isIP : string -> option Family.

(** A literal IP address is answered with itself at once, with the
    family of the literal and not the one asked for; the cache is not
    read even when it holds an entry under that name, and nothing but
    the promise changes. *)
Lemma lookup_literal_short_circuit σ c now fam :
  isIP (c_hostname c) = Some fam →
  lookup isIP c now σ
  = settle c
      (Fulfilled
         (if c_all c
          then Addresses [{| ai_address := c_hostname c; ai_family := fam |}]
          else Address (c_hostname c))) σ
  ∧ mem (lookup isIP c now σ) = mem σ
  ∧ registry (lookup isIP c now σ) = registry σ
  ∧ works (lookup isIP c now σ) = works σ.
Proof. intros Hip. unfold lookup. rewrite Hip. done. Qed.

(** The state in which the first query of a leading call is pending. *)
Lemma lookup_reaches_query σ c now table :
  isIP (c_hostname c) = None →
  cache_probe (c_hostname c) (c_family c) (timestamp now) (Cache (mem σ))
  = None →
  leads c now σ →
  ∃ σ1 t1,
    run isIP (ELookup c now :: hosts_arrival σ (c_id c) table) σ = σ1
    ∧ works σ1
      = <[c_id c :=
            (c, false,
             {| w_hostname := c_hostname c; w_family := c_family c;
                w_result := result_ref (table_seen σ table) (c_hostname c);
                w_err4 := None; w_err6 := None;
                w_v4updated := bool_decide (c_family c ≠ Only IPV6);
                w_phase := if bool_decide (c_family c = Only IPV6)
                           then AwaitAAAA else AwaitA |})]> (works σ)
    ∧ mem σ1
      = {| Cache := Cache (mem σ);
           HostsConfig := Some (table_seen σ table);
           next_id := next_id (mem σ);
           queries := queries (mem σ) ++ hosts_calls σ
                      ++ [if bool_decide (c_family c = Only IPV6)
                          then Resolve6 (c_hostname c)
                          else Resolve4 (c_hostname c)] |}
    ∧ settled σ1 = settled σ
    ∧ immediates σ1 = immediates σ
    ∧ Throttle.tasks (registry σ1) !! key_of c = Some t1
    ∧ Throttle.cache t1 = None.
Proof.
  intros Hip Hp Hl.
  destruct (lookup_leader isIP σ c now Hip Hp Hl)
    as (σ0 & t1 & Hlk & Hm & Hw & Hs & Hi & Ht & Hc).
  unfold hosts_arrival, hosts_calls, table_seen, result_ref.
  destruct (HostsConfig (mem σ)) as [cfg|] eqn:Hh.
  - eexists _, t1. split; [reflexivity|].
    cbn [run fold_left step]. rewrite Hlk. unfold start. rewrite Hh.
    unfold after_hosts. rewrite Hh.
    destruct (c_family c) as [|[|]];
      unfold updateV4_call, set_v4updated, set_phase, issue; cbn;
      rewrite ?Hw, ?Hs, ?Hi, ?Hh; repeat split; done.
  - eexists _, t1. split; [reflexivity|].
    cbn [run fold_left step]. rewrite Hlk. unfold start. rewrite Hh.
    cbn. rewrite lookup_insert_eq. cbn. unfold resume_hosts, after_hosts.
    cbn.
    destruct (c_family c) as [|[|]];
      unfold updateV4_call, set_v4updated, set_phase, issue; cbn;
      rewrite ?insert_insert_eq, ?Hw, ?Hs, ?Hi, ?Hh, <- ?app_assoc;
      repeat split; done.
Qed.

Lemma run_snoc evs ev σ :
  run isIP (evs ++ [ev]) σ = step isIP ev (run isIP evs σ).
Proof. unfold run. by rewrite fold_left_app. Qed.

(** X14. A family-4 call that misses the cache and leads: when the A
    query fails, the promise is rejected with the resolver's own error
    object, unchanged; no AAAA query leaves, the cache is not written,
    and the failure is what the task of the key now holds. *)
Theorem lookup_v4_failure_is_surfaced σ c now table d4 now4 :
  isIP (c_hostname c) = None →
  c_family c = Only IPV4 →
  cache_probe (c_hostname c) (c_family c) (timestamp now) (Cache (mem σ))
  = None →
  leads c now σ →
  let σ2 :=
    run isIP
      (ELookup c now
       :: hosts_arrival σ (c_id c) table
       ++ [EResolve4 (c_id c) (inr d4) now4]) σ in
  let e4 := {| e_id := next_id (mem σ); e_data := d4 |} in
  settled σ2 = settled σ ++ [(c_id c, Failed e4)]
  ∧ queries (mem σ2)
    = queries (mem σ) ++ hosts_calls σ ++ [Resolve4 (c_hostname c)]
  ∧ Cache (mem σ2) = Cache (mem σ)
  ∧ works σ2 = delete (c_id c) (works σ)
  ∧ ∃ t, Throttle.tasks (registry σ2) !! key_of c = Some t
         ∧ Throttle.cache t = Some (Throttle.cached_of (inr e4)).
Proof.
  intros Hip Hf Hp Hl σ2 e4.
  destruct (lookup_reaches_query σ c now table Hip Hp Hl)
    as (σ1 & t1 & E1 & Hw & Hm & Hs & Hi & Ht & Hc).
  rewrite Hf in Hw, Hm. cbn in Hw, Hm.
  set (m2 := {| Cache := Cache (mem σ);
                HostsConfig := Some (table_seen σ table);
                next_id := S (next_id (mem σ));
                queries := queries (mem σ) ++ hosts_calls σ
                           ++ [Resolve4 (c_hostname c)] |}).
  assert (E2 : σ2 = advance c false (progress_of (inr e4), m2) σ1).
  { subst σ2. rewrite app_comm_cons, run_snoc, E1. cbn [step].
    rewrite Hw, lookup_insert_eq. cbn [w_phase]. rewrite Hm. reflexivity. }
  clearbody σ2. subst σ2.
  destruct (advance_finished c (inr e4) m2 σ1 t1 Ht)
    as (Hs2 & Hm2 & Hw2 & _ & Ht2).
  cbn [Throttle.locals_of Throttle.verdict truthy fst snd deliver]
    in Hs2, Hm2.
  rewrite Hs2, !Hm2, Hw2, Ht2, Hs, Hw, delete_insert_eq.
  split; [done|]. split; [done|]. split; [done|]. split; [done|].
  eexists. split; done.
Qed.

Lemma ref_ok_result_ref h fam table (cache : CacheData) n qs e4 e6 u p :
  ref_ok {| w_hostname := h; w_family := fam;
            w_result := result_ref table h; w_err4 := e4; w_err6 := e6;
            w_v4updated := u; w_phase := p |}
         {| Cache := cache; HostsConfig := Some table; next_id := n;
            queries := qs |}.
Proof.
  unfold ref_ok, result_ref. cbn. destruct (table !! h); [eauto|done].
Qed.

Lemma deref_result_ref h fam table (cache : CacheData) n qs e4 e6 u p :
  deref {| w_hostname := h; w_family := fam;
           w_result := result_ref table h; w_err4 := e4; w_err6 := e6;
           w_v4updated := u; w_phase := p |}
        {| Cache := cache; HostsConfig := Some table; next_id := n;
           queries := qs |}
  = entries table h.
Proof.
  unfold deref, result_ref, entries. cbn. by destruct (table !! h).
Qed.

(** The work of a family-4 call when its A query succeeds. *)
Lemma resume_A_returns records now4 w m :
  w_family w = Only IPV4 → w_err4 w = None → ref_ok w m →
  let v4 := map (stamp IPV4 (timestamp now4)) records in
  ∃ m',
    resume_A (inl records) now4 w m = (Returned (deref w m ++ v4), m')
    ∧ Cache m' = cache_write_v4 (w_hostname w) v4 (Cache m)
    ∧ HostsConfig m' = HostsConfig (push v4 w m).2
    ∧ next_id m' = next_id m ∧ queries m' = queries m.
Proof.
  intros Hf H4 Hok v4. unfold resume_A, updateV4_settle. fold v4.
  destruct (push_spec v4 w m Hok)
    as (Hd & _ & Hc & Hn & Hq & Hh & Hf' & H4' & _).
  destruct (push v4 w m) as [w' m1]. cbn [fst snd] in *.
  rewrite Hf', Hf. unfold conclude. rewrite H4', H4, Hf', Hf.
  eexists. split.
  - rewrite <- Hd. unfold deref. destruct (w_err6 w'); reflexivity.
  - cbn. by rewrite Hh, Hc.
Qed.

(** X15. A family-4 call that misses the cache and leads, when its A
    query succeeds: the records found are the IPv4 records the override
    table has for the host followed by the A records in the resolver's
    order; a call for all addresses gets them all, a call for one gets
    the first, so an override record is preferred to the resolver's.
    The cache entry of the host is rewritten by the write of
    [updateV4], and one query has left. *)
Theorem lookup_v4_success σ c now table records now4 :
  isIP (c_hostname c) = None →
  c_family c = Only IPV4 →
  cache_probe (c_hostname c) (c_family c) (timestamp now) (Cache (mem σ))
  = None →
  leads c now σ →
  let σ2 :=
    run isIP
      (ELookup c now
       :: hosts_arrival σ (c_id c) table
       ++ [EResolve4 (c_id c) (inl records) now4]) σ in
  let v4 := map (stamp IPV4 (timestamp now4)) records in
  let found :=
    List.filter (has_family IPV4)
      (entries (table_seen σ table) (c_hostname c)) ++ v4 in
  (∃ s, settled σ2 = settled σ ++ [(c_id c, s)]
        ∧ (c_all c = true → s = Fulfilled (Addresses (map project found)))
        ∧ (c_all c = false → ∀ a rest,
             found = a :: rest → s = Fulfilled (Address (address a))))
  ∧ Cache (mem σ2) = cache_write_v4 (c_hostname c) v4 (Cache (mem σ))
  ∧ queries (mem σ2)
    = queries (mem σ) ++ hosts_calls σ ++ [Resolve4 (c_hostname c)].
Proof.
  intros Hip Hf Hp Hl σ2 v4 found.
  destruct (lookup_reaches_query σ c now table Hip Hp Hl)
    as (σ1 & t1 & E1 & Hw & Hm & Hs & Hi & Ht & Hc).
  rewrite Hf in Hw, Hm. cbn in Hw, Hm.
  match type of Hw with _ = <[_ := (_, _, ?w)]> _ => set (w1 := w) in * end.
  destruct (resume_A_returns records now4 w1 (mem σ1) eq_refl eq_refl)
    as (m2 & Er & Hc2 & Hh2 & Hn2 & Hq2).
  { rewrite Hm. apply ref_ok_result_ref. }
  fold v4 in Er, Hc2, Hh2.
  assert (Hd : deref w1 (mem σ1)
               = entries (table_seen σ table) (c_hostname c)).
  { rewrite Hm. apply deref_result_ref. }
  rewrite Hd in Er.
  assert (E2 : σ2 = advance c false
                      (progress_of
                         (inl (entries (table_seen σ table) (c_hostname c)
                               ++ v4)), m2) σ1).
  { subst σ2. rewrite app_comm_cons, run_snoc, E1. cbn [step].
    rewrite Hw, lookup_insert_eq. cbn [w_phase w1]. by rewrite Er. }
  clearbody σ2. subst σ2.
  destruct (advance_finished c
              (inl (entries (table_seen σ table) (c_hostname c) ++ v4))
              m2 σ1 t1 Ht) as (Hs2 & Hm2 & _).
  cbn [Throttle.locals_of Throttle.verdict truthy fst snd deliver]
    in Hs2, Hm2.
  destruct (shape_project c
              (entries (table_seen σ table) (c_hostname c) ++ v4) m2)
    as [Hall Hone].
  rewrite Hf in Hall, Hone. change (wanted (Only IPV4)) with (has_family IPV4)
    in Hall, Hone.
  rewrite List.filter_app, (filter_has_family_all IPV4 v4) in Hall, Hone
    by apply stamp_family.
  fold found in Hall, Hone.
  rewrite Hs2, !Hm2, Hs. split; [|split].
  - eexists. split; [reflexivity|]. split.
    + intros Ha. by rewrite (Hall Ha).
    + intros Ha a rest Hfound. by rewrite (Hone Ha a rest Hfound).
  - destruct (c_all c) eqn:Ea.
    + rewrite (Hall eq_refl). cbn. by rewrite Hc2, Hm.
    + destruct found as [|a rest] eqn:Ef.
      * unfold shape. rewrite Ea, Hf. rewrite find_project.
        rewrite List.filter_app, (filter_has_family_all IPV4 v4)
          by apply stamp_family.
        fold found. rewrite Ef. cbn. by rewrite Hc2, Hm.
      * rewrite (Hone eq_refl a rest eq_refl). cbn. by rewrite Hc2, Hm.
  - destruct (c_all c) eqn:Ea.
    + rewrite (Hall eq_refl). cbn. by rewrite Hq2, Hm.
    + destruct found as [|a rest] eqn:Ef.
      * unfold shape. rewrite Ea, Hf. rewrite find_project.
        rewrite List.filter_app, (filter_has_family_all IPV4 v4)
          by apply stamp_family.
        fold found. rewrite Ef. cbn. by rewrite Hq2, Hm.
      * rewrite (Hone eq_refl a rest eq_refl). cbn. by rewrite Hq2, Hm.
Qed.

(** X16. The same fetch also writes the override table: when the table
    has an entry for the host, the A records are appended to it, since
    [result] is that very array; a table without entry for the host is
    left as it is. *)
Theorem lookup_v4_success_extends_override σ c now table records now4 :
  isIP (c_hostname c) = None →
  c_family c = Only IPV4 →
  cache_probe (c_hostname c) (c_family c) (timestamp now) (Cache (mem σ))
  = None →
  leads c now σ →
  let σ2 :=
    run isIP
      (ELookup c now
       :: hosts_arrival σ (c_id c) table
       ++ [EResolve4 (c_id c) (inl records) now4]) σ in
  let v4 := map (stamp IPV4 (timestamp now4)) records in
  HostsConfig (mem σ2)
  = Some match table_seen σ table !! c_hostname c with
         | Some l => <[c_hostname c := l ++ v4]> (table_seen σ table)
         | None => table_seen σ table
         end.
Proof.
  intros Hip Hf Hp Hl σ2 v4.
  destruct (lookup_reaches_query σ c now table Hip Hp Hl)
    as (σ1 & t1 & E1 & Hw & Hm & Hs & Hi & Ht & Hc).
  rewrite Hf in Hw, Hm. cbn in Hw, Hm.
  match type of Hw with _ = <[_ := (_, _, ?w)]> _ => set (w1 := w) in * end.
  destruct (resume_A_returns records now4 w1 (mem σ1) eq_refl eq_refl)
    as (m2 & Er & Hc2 & Hh2 & Hn2 & Hq2).
  { rewrite Hm. apply ref_ok_result_ref. }
  fold v4 in Er, Hc2, Hh2.
  assert (E2 : σ2 = advance c false
                      (progress_of (inl (deref w1 (mem σ1) ++ v4)), m2) σ1).
  { subst σ2. rewrite app_comm_cons, run_snoc, E1. cbn [step].
    rewrite Hw, lookup_insert_eq. cbn [w_phase w1]. by rewrite Er. }
  clearbody σ2. subst σ2.
  destruct (advance_finished c (inl (deref w1 (mem σ1) ++ v4)) m2 σ1 t1 Ht)
    as (_ & Hm2 & _).
  cbn [Throttle.locals_of Throttle.verdict truthy fst snd deliver] in Hm2.
  rewrite Hm2, (proj1 (proj2 (shape_mem _ _ _))), Hh2, Hm.
  unfold push, w1, result_ref. cbn.
  destruct (table_seen σ table !! c_hostname c) as [l|] eqn:El; cbn.
  - by rewrite (alter_present _ _ _ l).
  - done.
Qed.

(** The work of a family-6 call when its AAAA query fails with another
    error than ENODATA of queryAaaa. *)
Lemma resume_AAAA_throws d6 now6 w m :
  w_family w = Only IPV6 →
  is_enodata_aaaa {| e_id := next_id m; e_data := d6 |} = false →
  resume_AAAA (inr d6) now6 w m
  = (Thrown {| e_id := next_id m; e_data := d6 |},
     {| Cache := Cache m; HostsConfig := HostsConfig m;
        next_id := S (next_id m); queries := queries m |}).
Proof.
  intros Hf He. unfold resume_AAAA. cbn [alloc]. rewrite He. cbn [andb].
  unfold conclude. cbn. rewrite Hf. by destruct (w_err4 w).
Qed.

(** X17. A family-6 call that misses the cache and leads: when the AAAA
    query fails with an error that is not ENODATA of queryAaaa, the
    promise is rejected with that error object; no synthesis is tried,
    so no A query leaves, and the cache is not written. *)
Theorem lookup_v6_failure_is_surfaced σ c now table d6 now6 :
  isIP (c_hostname c) = None →
  c_family c = Only IPV6 →
  cache_probe (c_hostname c) (c_family c) (timestamp now) (Cache (mem σ))
  = None →
  leads c now σ →
  e_code d6 ≠ Some "ENODATA" ∨ e_syscall d6 ≠ Some "queryAaaa" →
  let σ2 :=
    run isIP
      (ELookup c now
       :: hosts_arrival σ (c_id c) table
       ++ [EResolve6 (c_id c) (inr d6) now6]) σ in
  let e6 := {| e_id := next_id (mem σ); e_data := d6 |} in
  settled σ2 = settled σ ++ [(c_id c, Failed e6)]
  ∧ queries (mem σ2)
    = queries (mem σ) ++ hosts_calls σ ++ [Resolve6 (c_hostname c)]
  ∧ Cache (mem σ2) = Cache (mem σ).
Proof.
  intros Hip Hf Hp Hl Hd σ2 e6.
  destruct (lookup_reaches_query σ c now table Hip Hp Hl)
    as (σ1 & t1 & E1 & Hw & Hm & Hs & Hi & Ht & Hc).
  rewrite Hf in Hw, Hm. cbn in Hw, Hm.
  match type of Hw with _ = <[_ := (_, _, ?w)]> _ => set (w1 := w) in * end.
  assert (He : is_enodata_aaaa {| e_id := next_id (mem σ1); e_data := d6 |}
               = false).
  { unfold is_enodata_aaaa. cbn. apply andb_false_iff.
    destruct Hd as [Hd|Hd]; [left|right]; by apply bool_decide_eq_false. }
  pose proof (resume_AAAA_throws d6 now6 w1 (mem σ1) eq_refl He) as Er.
  rewrite Hm in Er. cbn [Cache HostsConfig next_id queries] in Er.
  match type of Er with _ = (_, ?m) => set (m2 := m) in * end.
  assert (E2 : σ2 = advance c false (progress_of (inr e6), m2) σ1).
  { subst σ2. rewrite app_comm_cons, run_snoc, E1. cbn [step].
    rewrite Hw, lookup_insert_eq. cbn [w_phase w1]. rewrite Hm.
    by rewrite Er. }
  clearbody σ2. subst σ2.
  destruct (advance_finished c (inr e6) m2 σ1 t1 Ht) as (Hs2 & Hm2 & _).
  cbn [Throttle.locals_of Throttle.verdict truthy fst snd deliver]
    in Hs2, Hm2.
  rewrite Hs2, !Hm2, Hs. done.
Qed.

(** The work of a call for any family when its A query succeeds. *)
Lemma resume_A_suspends records now4 w m :
  w_family w = Unspec → ref_ok w m →
  let v4 := map (stamp IPV4 (timestamp now4)) records in
  ∃ w' m',
    resume_A (inl records) now4 w m = (Suspended w', m')
    ∧ w_phase w' = AwaitAAAA ∧ w_family w' = Unspec
    ∧ w_err4 w' = w_err4 w ∧ w_hostname w' = w_hostname w
    ∧ deref w' m' = deref w m ++ v4
    ∧ Cache m' = cache_write_v4 (w_hostname w) v4 (Cache m)
    ∧ queries m' = queries m ++ [Resolve6 (w_hostname w)]
    ∧ next_id m' = next_id m.
Proof.
  intros Hf Hok v4. unfold resume_A, updateV4_settle. fold v4.
  destruct (push_spec v4 w m Hok)
    as (Hd & _ & Hc & Hn & Hq & Hh & Hf' & H4' & _).
  destruct (push v4 w m) as [w' m1]. cbn [fst snd] in *.
  rewrite Hf', Hf. eexists _, _. split; [reflexivity|].
  cbn. rewrite Hh, Hc, Hq, Hn, <- Hd.
  repeat split; try done; congruence.
Qed.

(** Its end when the AAAA query then fails. *)
Lemma resume_AAAA_partial d6 now6 w m :
  w_family w = Unspec → w_err4 w = None →
  resume_AAAA (inr d6) now6 w m
  = (Returned (deref w m),
     {| Cache := Cache m; HostsConfig := HostsConfig m;
        next_id := S (next_id m); queries := queries m |}).
Proof.
  intros Hf H4. unfold resume_AAAA. cbn [alloc]. rewrite Hf.
  change (bool_decide (Unspec = Only IPV6)) with false.
  rewrite andb_false_r. unfold conclude. cbn. rewrite H4, Hf.
  reflexivity.
Qed.

(** X18. A call for any family that misses the cache and leads, when
    its A query succeeds and its AAAA query then fails, with whatever
    error: the failure is dropped and no synthesis is tried. The answer
    is made from the records of the override table for the host
    followed by the A records: a call for all addresses is fulfilled
    with them, even when there are none; a call for one address is
    fulfilled with the first, and when there is none (no override
    record and an empty A answer) it is rejected with the [TypeError] of
    reading [addresses[0].address]. *)
Theorem lookup_any_v6_failure_is_dropped σ c now table records now4 d6 now6 :
  isIP (c_hostname c) = None →
  c_family c = Unspec →
  cache_probe (c_hostname c) (c_family c) (timestamp now) (Cache (mem σ))
  = None →
  leads c now σ →
  let σ3 :=
    run isIP
      (ELookup c now
       :: hosts_arrival σ (c_id c) table
       ++ [EResolve4 (c_id c) (inl records) now4;
           EResolve6 (c_id c) (inr d6) now6]) σ in
  let v4 := map (stamp IPV4 (timestamp now4)) records in
  let found := entries (table_seen σ table) (c_hostname c) ++ v4 in
  (∃ s, settled σ3 = settled σ ++ [(c_id c, s)]
        ∧ (c_all c = true → s = Fulfilled (Addresses (map project found)))
        ∧ (c_all c = false → ∀ a rest,
             found = a :: rest → s = Fulfilled (Address (address a)))
        ∧ (c_all c = false → found = [] →
             s = Failed
                   {| e_id := S (next_id (mem σ));
                      e_data :=
                        {| e_class := TypeErrorC;
                           e_message :=
                             "Cannot read properties of undefined (reading 'address')";
                           e_errno := None; e_code := None;
                           e_syscall := None; e_hostname := None |} |}))
  ∧ Cache (mem σ3) = cache_write_v4 (c_hostname c) v4 (Cache (mem σ))
  ∧ queries (mem σ3)
    = queries (mem σ) ++ hosts_calls σ
      ++ [Resolve4 (c_hostname c); Resolve6 (c_hostname c)].
Proof.
  intros Hip Hf Hp Hl σ3 v4 found.
  destruct (lookup_reaches_query σ c now table Hip Hp Hl)
    as (σ1 & t1 & E1 & Hw & Hm & Hs & Hi & Ht & Hc).
  rewrite Hf in Hw, Hm. cbn in Hw, Hm.
  match type of Hw with _ = <[_ := (_, _, ?w)]> _ => set (w1 := w) in * end.
  destruct (resume_A_suspends records now4 w1 (mem σ1) eq_refl)
    as (w2 & m2 & Er & Hph & Hf2 & H42 & Hh2 & Hd2 & Hc2 & Hq2 & Hn2).
  { rewrite Hm. apply ref_ok_result_ref. }
  fold v4 in Hd2, Hc2.
  assert (Hd : deref w1 (mem σ1)
               = entries (table_seen σ table) (c_hostname c)).
  { rewrite Hm. apply deref_result_ref. }
  rewrite Hd in Hd2. fold found in Hd2.
  set (σ2 := set_works (<[c_id c := (c, false, w2)]> (works σ1))
               (set_mem m2 σ1)).
  assert (E2 : run isIP
                 (ELookup c now
                  :: hosts_arrival σ (c_id c) table
                  ++ [EResolve4 (c_id c) (inl records) now4]) σ = σ2).
  { rewrite app_comm_cons, run_snoc, E1. cbn [step].
    rewrite Hw, lookup_insert_eq. cbn [w_phase w1]. rewrite Er.
    reflexivity. }
  pose proof (resume_AAAA_partial d6 now6 w2 m2 Hf2 H42) as Er3.
  rewrite Hd2 in Er3.
  match type of Er3 with _ = (_, ?m) => set (m3 := m) in * end.
  assert (E3 : σ3 = advance c false (progress_of (inl found), m3) σ2).
  { subst σ3.
    change [EResolve4 (c_id c) (inl records) now4;
            EResolve6 (c_id c) (inr d6) now6]
      with ([EResolve4 (c_id c) (inl records) now4]
            ++ [EResolve6 (c_id c) (inr d6) now6]).
    rewrite app_assoc, app_comm_cons, run_snoc, E2.
    cbn [step]. unfold σ2 at 1. cbn [works set_works].
    rewrite lookup_insert_eq, Hph. unfold σ2 at 1. cbn [mem set_works set_mem].
    by rewrite Er3. }
  clearbody σ3. subst σ3.
  assert (Ht2 : Throttle.tasks (registry σ2) !! key_of c = Some t1) by done.
  destruct (advance_finished c (inl found) m3 σ2 t1 Ht2) as (Hs3 & Hm3 & _).
  cbn [Throttle.locals_of Throttle.verdict truthy fst snd deliver]
    in Hs3, Hm3.
  destruct (shape_project c found m3) as [Hall Hone].
  rewrite Hf in Hall, Hone.
  change (wanted Unspec) with (fun _ : AddressInfoDetail => true)
    in Hall, Hone.
  rewrite filter_true in Hall, Hone.
  destruct (shape_mem c (map project found) m3) as (Hsc & _ & Hsq).
  rewrite Hs3, !Hm3, Hsc, Hsq. split; [|split].
  - eexists. split; [by rewrite <- Hs|]. split; [|split].
    + intros Ha. by rewrite (Hall Ha).
    + intros Ha a rest Hfound. by rewrite (Hone Ha a rest Hfound).
    + intros Ha Hfound. rewrite Hfound. unfold shape. rewrite Ha, Hf.
      subst m3. cbn. by rewrite Hn2, Hm.
  - subst m3. cbn. by rewrite Hc2, Hm.
  - subst m3. cbn. rewrite Hq2, Hm. cbn. by rewrite <- !app_assoc.
Qed.

End MachineMore.

(** ** An invariant of the machine: literals never reach the cache *)

Lemma cache_write_v4_keys hostname v4 (cache : CacheData) h slot :
  cache_write_v4 hostname v4 cache !! h = Some slot →
  h = hostname ∨ is_Some (cache !! h).
Proof.
  unfold cache_write_v4. destruct (cache !! hostname);
    (destruct (decide (hostname = h)) as [->|Hne]; [by left|];
     rewrite lookup_insert_ne by done; eauto).
Qed.

Lemma cache_write_v6_keys hostname v6 (cache : CacheData) h slot :
  cache_write_v6 hostname v6 cache !! h = Some slot →
  h = hostname ∨ is_Some (cache !! h).
Proof.
  unfold cache_write_v6. destruct (cache !! hostname); [eauto|].
  destruct (decide (hostname = h)) as [->|Hne]; [by left|].
  rewrite lookup_insert_ne by done. eauto.
Qed.

Lemma synthesize_keys hostname (cache cache' : CacheData) h slot :
  synthesize hostname cache = Some cache' →
  cache' !! h = Some slot → h = hostname ∨ is_Some (cache !! h).
Proof.
  unfold synthesize. destruct (cache !! hostname); [|done]. intros [= <-].
  destruct (decide (hostname = h)) as [->|Hne]; [by left|].
  rewrite lookup_insert_ne by done. eauto.
Qed.

Lemma push_frame records w m :
  Cache (push records w m).2 = Cache m
  ∧ w_hostname (push records w m).1 = w_hostname w.
Proof. unfold push. by destruct (w_result w). Qed.

Lemma conclude_confined w m : confined (w_hostname w) m (conclude w m).
Proof.
  unfold confined, conclude.
  destruct (w_err4 w), (w_err6 w), (w_family w) as [|[|]]; cbn;
    split; eauto; done.
Qed.

Lemma confined_trans hostname m1 m2 pm :
  (∀ h slot, Cache m2 !! h = Some slot →
     h = hostname ∨ is_Some (Cache m1 !! h)) →
  confined hostname m2 pm → confined hostname m1 pm.
Proof.
  intros H12 [Hc Hw]. split; [|done]. intros h slot Hs.
  destruct (Hc h slot Hs) as [->|[slot' Hs']]; [by left|]. eauto.
Qed.

Lemma updateV4_settle_keys ans now w m :
  (∀ h slot, Cache (updateV4_settle ans now w m).2 !! h = Some slot →
     h = w_hostname w ∨ is_Some (Cache m !! h))
  ∧ w_hostname (updateV4_settle ans now w m).1 = w_hostname w.
Proof.
  unfold updateV4_settle. destruct ans as [records|d].
  - destruct (push_frame (map (stamp IPV4 (timestamp now)) records) w m)
      as [Hc Hh].
    destruct (push _ w m) as [w' m']. cbn in *. split; [|done].
    intros h slot Hs. rewrite Hh, Hc in Hs.
    by apply cache_write_v4_keys in Hs.
  - cbn. split; eauto.
Qed.

Lemma synth_tail_confined e w m : confined (w_hostname w) m (synth_tail e w m).
Proof.
  unfold synth_tail. destruct (synthesize (w_hostname w) (Cache m)) eqn:Es.
  - eapply confined_trans; [|apply conclude_confined]. cbn.
    intros h slot. by apply synthesize_keys.
  - apply (conclude_confined (set_err6 e w) m).
Qed.

Lemma after_hosts_confined hostname fam m :
  confined hostname m (after_hosts hostname fam m).
Proof.
  unfold confined, after_hosts.
  destruct fam as [|[|]]; cbn; split; eauto; by intros ? [= <-].
Qed.

Lemma start_confined hostname fam m : confined hostname m (start hostname fam m).
Proof.
  unfold start. destruct (HostsConfig m); [apply after_hosts_confined|].
  split; cbn; eauto. by intros ? [= <-].
Qed.

Lemma resume_hosts_confined ans w m :
  confined (w_hostname w) m (resume_hosts ans w m).
Proof.
  unfold resume_hosts. destruct ans as [table|e].
  - eapply confined_trans; [|apply after_hosts_confined]. cbn. eauto.
  - split; cbn; eauto. done.
Qed.

Lemma resume_A_confined ans now w m :
  confined (w_hostname w) m (resume_A ans now w m).
Proof.
  unfold resume_A. destruct (updateV4_settle_keys ans now w m) as [Hk Hh].
  destruct (updateV4_settle ans now w m) as [w' m']. cbn in *.
  rewrite <- Hh in *.
  destruct (w_family w') as [|[|]].
  - split; cbn; [by rewrite Hh; rewrite Hh in Hk|by intros ? [= <-]].
  - eapply confined_trans; [|apply conclude_confined]. done.
  - split; cbn; [by rewrite Hh; rewrite Hh in Hk|by intros ? [= <-]].
Qed.

Lemma resume_ASynth_confined e ans now w m :
  confined (w_hostname w) m (resume_ASynth e ans now w m).
Proof.
  unfold resume_ASynth. destruct (updateV4_settle_keys ans now w m) as [Hk Hh].
  destruct (updateV4_settle ans now w m) as [w' m']. cbn in *.
  rewrite <- Hh in *.
  eapply confined_trans; [|apply synth_tail_confined]. done.
Qed.

Lemma resume_AAAA_confined ans now w m :
  confined (w_hostname w) m (resume_AAAA ans now w m).
Proof.
  unfold resume_AAAA. destruct ans as [records|d].
  - destruct (push_frame (map (stamp IPV6 (timestamp now)) records) w m)
      as [Hc Hh].
    destruct (push _ w m) as [w' m']. cbn in *. rewrite <- Hh.
    eapply confined_trans; [|apply conclude_confined]. cbn.
    intros h slot Hs. rewrite Hc in Hs. by apply cache_write_v6_keys in Hs.
  - cbn [alloc].
    destruct (is_enodata_aaaa _ && bool_decide (w_family w = Only IPV6)).
    + destruct (negb (w_v4updated w)).
      * split; cbn; eauto. by intros ? [= <-].
      * eapply confined_trans; [|apply synth_tail_confined]. cbn. eauto.
    + eapply confined_trans;
        [|apply (conclude_confined (set_err6 _ w))]. cbn. eauto.
Qed.

Lemma deliver_cache c o m : Cache (deliver c o m).2 = Cache m.
Proof.
  unfold deliver. destruct o as [[l|]|e]; [|done|done].
  apply shape_mem.
Qed.

Section LiteralFree.

Variable isIP : string -> option Family.

Lemma settle_from_literal_free c o σ :
  literal_free isIP σ → literal_free isIP (settle_from c o σ).
Proof.
  intros [Hc Hw]. unfold settle_from.
  pose proof (deliver_cache c o (mem σ)) as Hd.
  destruct (deliver c o (mem σ)) as [s m]. cbn in *.
  split; cbn; [by rewrite Hd|done].
Qed.

Lemma finish_literal_free c bg r σ :
  literal_free isIP σ → literal_free isIP (finish c bg r σ).
Proof.
  intros Hσ. unfold finish.
  destruct (Throttle.tasks (registry σ) !! _) as [t|]; [|done].
  destruct bg; [exact Hσ|].
  unfold Throttle.complete. destruct (Throttle.locals_of r) as [e v].
  apply settle_from_literal_free. exact Hσ.
Qed.

Lemma advance_literal_free c bg pm σ hostname :
  isIP hostname = None →
  confined hostname (mem σ) pm →
  literal_free isIP σ → literal_free isIP (advance c bg pm σ).
Proof.
  intros Hip [Hk Hs] [Hc Hw]. unfold advance.
  assert (Hc' : ∀ h slot, Cache pm.2 !! h = Some slot → isIP h = None).
  { intros h slot Hh. destruct (Hk h slot Hh) as [->|[slot' Hs']]; eauto. }
  destruct pm.1 as [w|l|e] eqn:Ep.
  - split; cbn; [done|]. intros i c' bg' w' Hi.
    destruct (decide (c_id c = i)) as [<-|Hne].
    + rewrite lookup_insert_eq in Hi. injection Hi as <- <- <-.
      by rewrite (Hs w eq_refl).
    + rewrite lookup_insert_ne in Hi by done. eauto.
  - apply finish_literal_free. split; cbn; [done|].
    intros i c' bg' w' Hi. apply lookup_delete_Some in Hi as [_ Hi]. eauto.
  - apply finish_literal_free. split; cbn; [done|].
    intros i c' bg' w' Hi. apply lookup_delete_Some in Hi as [_ Hi]. eauto.
Qed.

Lemma lookup_literal_free c now σ :
  literal_free isIP σ → literal_free isIP (lookup isIP c now σ).
Proof.
  intros Hσ. unfold lookup.
  destruct (isIP (c_hostname c)) eqn:Hip; [exact Hσ|].
  destruct (cache_probe _ _ _ _); [by apply settle_from_literal_free|].
  unfold Throttle.useThrottle. change (DEFAULT_TTL <? 1) with false. cbv iota.
  destruct (Throttle.tasks _ !! _) as [t|]; [|exact Hσ].
  destruct (Throttle.throttle truthy now c t) as [t' en].
  assert (Hσ' : ∀ reg, literal_free isIP
                         (set_task (tag_of (c_hostname c) (c_family c) (c_all c))
                            t' (set_registry reg σ))) by (intros; exact Hσ).
  destruct en.
  - eapply advance_literal_free; [exact Hip|apply start_confined|apply Hσ'].
  - apply settle_from_literal_free.
    eapply advance_literal_free; [exact Hip|apply start_confined|apply Hσ'].
  - apply settle_from_literal_free, Hσ'.
  - apply Hσ'.
Qed.

Lemma step_literal_free ev σ :
  literal_free isIP σ → literal_free isIP (step isIP ev σ).
Proof.
  intros Hσ. destruct ev as [c now|w ans|w ans now|w ans now|]; cbn [step].
  - by apply lookup_literal_free.
  - destruct (works σ !! w) as [[[c bg] wk]|] eqn:Ew; [|done].
    destruct (w_phase wk); try done.
    eapply advance_literal_free;
      [exact (proj2 Hσ _ _ _ _ Ew)|apply resume_hosts_confined|done].
  - destruct (works σ !! w) as [[[c bg] wk]|] eqn:Ew; [|done].
    destruct (w_phase wk); try done.
    + eapply advance_literal_free;
        [exact (proj2 Hσ _ _ _ _ Ew)|apply resume_A_confined|done].
    + eapply advance_literal_free;
        [exact (proj2 Hσ _ _ _ _ Ew)|apply resume_ASynth_confined|done].
  - destruct (works σ !! w) as [[[c bg] wk]|] eqn:Ew; [|done].
    destruct (w_phase wk); try done.
    eapply advance_literal_free;
      [exact (proj2 Hσ _ _ _ _ Ew)|apply resume_AAAA_confined|done].
  - destruct (immediates σ) as [|[key k] rest]; [done|].
    cbn [registry set_immediates].
    destruct (Throttle.tasks (registry σ) !! key) as [t|]; [|exact Hσ].
    unfold Throttle.drain.
    assert (Hσ' : literal_free isIP
                    (set_task key
                       {| Throttle.interval := Throttle.interval t;
                          Throttle.backgroundUpdate :=
                            Throttle.backgroundUpdate t;
                          Throttle.lastActive := Throttle.lastActive t;
                          Throttle.cache := Throttle.cache t;
                          Throttle.queue := [] |}
                       (set_immediates rest σ))) by exact Hσ.
    revert Hσ'. generalize (set_task key
                       {| Throttle.interval := Throttle.interval t;
                          Throttle.backgroundUpdate :=
                            Throttle.backgroundUpdate t;
                          Throttle.lastActive := Throttle.lastActive t;
                          Throttle.cache := Throttle.cache t;
                          Throttle.queue := [] |}
                       (set_immediates rest σ)).
    induction (Throttle.queue t) as [|j js IH]; intros σ0 Hσ0; cbn; [done|].
    apply IH. by apply settle_from_literal_free.
Qed.

Lemma loaded_literal_free : literal_free isIP loaded.
Proof. split; cbn; intros *; by rewrite lookup_empty. Qed.

(** X19. Literal addresses stay out of the shared state: from a state
    in which no cache entry and no suspended work is for a literal
    address, as the state of a loaded module is, no sequence of calls
    and answers leads to a state with such an entry or work. *)
Theorem run_literal_free evs σ :
  literal_free isIP σ → literal_free isIP (run isIP evs σ).
Proof.
  revert σ. unfold run.
  induction evs as [|ev evs IH]; intros σ Hσ; cbn; [done|].
  apply IH. by apply step_literal_free.
Qed.

End LiteralFree.

(** ** The two ways [lookup] delivers *)

(** X20. The callback path and the promise path of [lookup] agree: on
    every outcome of the query the callback is called with the error the
    promise would be rejected with, or with the value it would be
    fulfilled with (and, for one address, with a family), and both leave
    the same memory. *)
Theorem callback_agrees_with_promise c o m :
  agrees (deliver c o m).1 (deliver_cb c o m).1
  ∧ (deliver c o m).2 = (deliver_cb c o m).2.
Proof.
  unfold deliver, deliver_cb.
  destruct o as [[l|]|e]; cbn; [|repeat split; eauto..].
  unfold shape, shape_cb.
  destruct (c_all c), (c_family c) as [|f]; cbn; try (repeat split; eauto; fail).
  - destruct (map project l); cbn; repeat split; eauto.
  - destruct (List.find (ai_has_family f) (map project l)); cbn;
      repeat split; eauto.
Qed.

(** ** [install] *)

(** X21. [install] is idempotent, and the family of the first call
    stays: installing again on an agent it has already served, with any
    family, leaves the agent as it is, so [createConnection] is wrapped
    once. *)
Theorem install_once agent fam1 fam2 agent1 :
  install agent fam1 = inl agent1 →
  install agent1 fam2 = inl agent1.
Proof.
  unfold install. destruct (createConnection agent) as [f|] eqn:Ec.
  - destruct (saved agent) as [g|] eqn:Es; intros [= <-]; cbn.
    + by rewrite Ec, Es.
    + done.
  - destruct (isHttpsProxyAgent agent) eqn:Ei; [|done].
    destruct (proxy agent) as [o| |] eqn:Ep; try done. intros [= <-]. cbn.
    unfold isHttpsProxyAgent in *. cbn. rewrite Ep in Ei. rewrite Ei.
    unfold tryAttach. destruct (o_lookup o) eqn:El; cbn; rewrite ?El; done.
Qed.

(** X22. [install] refuses an agent with its own [TypeError] exactly when
    [createConnection] is not a function and the agent does not look like
    an HttpsProxyAgent; in that case and every other, an agent with a
    [createConnection] function is never refused. *)
Theorem install_refuses agent fam :
  (install agent fam
   = inr (TypeErrorC, "Cannot install lookup function on the given agent")
   ↔ createConnection agent = None ∧ isHttpsProxyAgent agent = false)
  ∧ (is_Some (createConnection agent) → ∃ agent1, install agent fam = inl agent1).
Proof.
  unfold install. split.
  - destruct (createConnection agent).
    + destruct (saved agent); split; [done|by intros []|done|by intros []].
    + destruct (isHttpsProxyAgent agent).
      * destruct (proxy agent); split; try done; by intros [].
      * done.
  - intros [f ->]. destruct (saved agent); eauto.
Qed.

(** X23. After [install] on an agent whose [createConnection] is a
    function [g] not yet wrapped, a connection calls [g] with the options
    it was given when these have a [lookup], the user's or an installed
    one, and else with the options completed by the installed function;
    that function asks [lookup] for the family of the options when they
    have one, [0] included, and for the family of [install] otherwise. *)
Theorem install_then_connect agent fam g agent1 options :
  createConnection agent = Some g →
  saved agent = None →
  install agent fam = inl agent1 →
  connect agent1 options = Some (g, tryAttach fam options)
  ∧ (o_lookup options ≠ NoLookup → tryAttach fam options = options)
  ∧ (o_lookup options = NoLookup →
     o_lookup (tryAttach fam options) = BetterLookup fam
     ∧ o_family (tryAttach fam options) = o_family options)
  ∧ (∀ f, o_family options = Some f → installed_family fam options = f)
  ∧ (o_family options = None → installed_family fam options = fam).
Proof.
  intros Hc Hs. unfold install. rewrite Hc, Hs. intros [= <-].
  unfold connect, tryAttach, installed_family. cbn.
  split; [done|]. split; [|split; [|split]].
  - by destruct (o_lookup options).
  - by intros ->.
  - by intros f ->.
  - by intros ->.
Qed.

(** ** Instances *)

Lemma useThrottle_first_use_wins_witness :
  Throttle.useThrottle "k" 1 true
    (Throttle.useThrottle "k" 10000 false empty_registry).1
  = ((Throttle.useThrottle "k" 10000 false empty_registry).1,
     Throttle.Func "k")
  ∧ Throttle.tasks (Throttle.useThrottle "k" 10000 false empty_registry).1
    !! "k"
    = Some (Throttle.createThrottleTask 10000 false).
Proof.
  destruct (ThrottleMore.useThrottle_first_use_wins "k" 10000 1 false true
              empty_registry) as (H1 & H2 & _); [lia|lia|].
  split; [exact H1|exact H2].
Defined.



Lemma throttle_background_refresh_witness :
  ∃ t1,
    Throttle.throttle_invoking sample_truthy (Throttle.Throws "EFAIL")
      1700000010000 8%nat bg_task
    = (t1, Throttle.DispatchedBg (Throttle.Rejected "EFAIL"))
    ∧ Throttle.cache t1 = Some (Throttle.cached_of (inl 7%nat))
    ∧ Throttle.throttle_invoking sample_truthy Throttle.Returns
        1700000010500 9%nat t1
      = (t1, Throttle.Served (Throttle.Resolved (Some 7%nat)))
    ∧ Throttle.throttle_invoking sample_truthy Throttle.Returns
        1700000010500 9%nat (Throttle.complete_bg (inl 8%nat) t1)
      = (Throttle.complete_bg (inl 8%nat) t1,
         Throttle.Served (Throttle.Resolved (Some 8%nat))).
Proof.
  destruct (ThrottleMore.throttle_background_refresh sample_truthy bg_task
              (Throttle.cached_of (inl 7%nat)) (Throttle.Throws "EFAIL")
              Throttle.Returns 1700000010000 8%nat (inl 8%nat)
              1700000010500 9%nat)
    as (t1 & H1 & _ & Hc & _ & _ & H2 & H3).
  - reflexivity.
  - reflexivity.
  - vm_compute. discriminate.
  - reflexivity.
  - exists t1. split; [exact H1|]. split; [exact Hc|]. split; [exact H2|].
    exact H3.
Defined.

Lemma throttle_falsy_error_resolves_witness :
  (Throttle.complete sample_truthy (inr "") stuck_task).2
  = Throttle.Resolved None
  ∧ (Throttle.drain sample_truthy
       (Throttle.complete sample_truthy (inr "") stuck_task).1.2
       (Throttle.complete sample_truthy (inr "") stuck_task).1.1).2
    = [(5%nat, Throttle.Resolved None)].
Proof.
  destruct (ThrottleMore.throttle_falsy_error_resolves sample_truthy
              stuck_task "" eq_refl) as (H1 & H2 & _).
  split; [exact H1|exact H2].
Defined.

Lemma loadHostsConfig_names_clean_witness :
  clean_name "ip6-localhost" = true
  ∧ [{| address := "::1"; family := IPV6; expireAt := 1700000010 |}] ≠ [].
Proof.
  apply (loadHostsConfig_names_clean SampleIP.isIP sample_hosts 1700000000123).
  vm_compute. reflexivity.
Defined.

Lemma add_line_stops_at_comment_witness :
  add_line SampleIP.isIP 1700000010 ∅
    ("127.0.0.1" :: ["localhost"] ++ "#local" :: ["names"])
  = add_line SampleIP.isIP 1700000010 ∅ ("127.0.0.1" :: ["localhost"]).
Proof.
  apply (add_line_stops_at_comment SampleIP.isIP 1700000010 ∅ "127.0.0.1"
           ["localhost"] "#local" ["names"]).
  reflexivity.
Defined.

Lemma loadHostsConfig_blank_witness :
  loadHostsConfig SampleIP.isIP "# only a comment

  " 1700000000123 = ∅.
Proof.
  apply loadHostsConfig_blank. vm_compute. repeat constructor.
Defined.

Lemma timestamp_range_witness :
  timestamp 1700000000123 = 1700000000123 / 1000
  ∧ timestamp 2147483648000 = 2147483648000 / 1000 - 2 ^ 32.
Proof.
  split.
  - apply (proj1 (proj2 (timestamp_range 1700000000123))). lia.
  - apply (proj2 (proj2 (timestamp_range 2147483648000))). lia.
Defined.

Lemma cache_probe_sound_complete_witness :
  [kept4] ≠ []
  ∧ ∃ slot, Cache (mem stale6) !! host = Some slot
            ∧ [kept4] = usable (Only IPV4) 1700000100 slot
            ∧ Forall (fun a => In a slot ∧ 1700000100 < expireAt a
                               ∧ wanted (Only IPV4) a = true) [kept4].
Proof.
  apply (proj1 (cache_probe_sound_complete host (Only IPV4) 1700000100
                  (Cache (mem stale6))) [kept4]).
  vm_compute. reflexivity.
Defined.

Lemma synthesize_maps_ipv6_records_witness :
  synthesize host (Cache (mem stale6))
  = Some (<[host := [kept4;
                     {| address := "::ffff:2001:db8::1"; family := IPV6;
                        expireAt := 1700000000 |}]]>
            (Cache (mem stale6))).
Proof.
  destruct (proj2 (synthesize_maps_ipv6_records host (Cache (mem stale6)))
              [old6; kept4]) as (slot' & Hs & -> & _).
  - vm_compute. reflexivity.
  - exact Hs.
Defined.

Lemma lookup_literal_short_circuit_witness :
  lookup SampleIP.isIP
    {| c_id := 1; c_hostname := "127.0.0.1"; c_family := Only IPV6;
       c_all := false |} 1700000000000 loaded
  = settle
      {| c_id := 1; c_hostname := "127.0.0.1"; c_family := Only IPV6;
         c_all := false |}
      (Fulfilled (Address "127.0.0.1")) loaded.
Proof.
  apply (proj1 (lookup_literal_short_circuit SampleIP.isIP loaded
                  {| c_id := 1; c_hostname := "127.0.0.1";
                     c_family := Only IPV6; c_all := false |}
                  1700000000000 IPV4 eq_refl)).
Defined.

Lemma lookup_v4_failure_is_surfaced_witness :
  settled
    (run SampleIP.isIP
       [ELookup (caller 1 (Only IPV4) true) 1700000000000;
        EHosts 1 (inl ∅);
        EResolve4 1 (inr enodata_a) 1700000000040]
       loaded)
  = [(1%nat, Failed {| e_id := 0; e_data := enodata_a |})].
Proof.
  refine (proj1 (lookup_v4_failure_is_surfaced SampleIP.isIP loaded
                   (caller 1 (Only IPV4) true) 1700000000000 ∅ enodata_a
                   1700000000040 _ _ _ _)).
  - vm_compute. reflexivity.
  - reflexivity.
  - vm_compute. reflexivity.
  - vm_compute. reflexivity.
Defined.

Lemma lookup_v4_success_witness :
  settled
    (run SampleIP.isIP
       [ELookup (caller 1 (Only IPV4) false) 1700000000000;
        EResolve4 1 (inl [a_record]) 1700000000040]
       overridden)
  = [(1%nat, Fulfilled (Address "203.0.113.5"))].
Proof.
  destruct (lookup_v4_success SampleIP.isIP overridden
              (caller 1 (Only IPV4) false) 1700000000000 ∅ [a_record]
              1700000000040) as ((s & Hs & _ & Hone) & _).
  - vm_compute. reflexivity.
  - reflexivity.
  - vm_compute. reflexivity.
  - vm_compute. reflexivity.
  - rewrite (Hone eq_refl override4
               [stamp IPV4 (timestamp 1700000000040) a_record]) in Hs.
    + exact Hs.
    + vm_compute. reflexivity.
Defined.

Lemma lookup_v4_success_extends_override_witness :
  HostsConfig
    (mem (run SampleIP.isIP
            [ELookup (caller 1 (Only IPV4) false) 1700000000000;
             EResolve4 1 (inl [a_record]) 1700000000040]
            overridden))
  = Some {[ host := [override4;
                     stamp IPV4 (timestamp 1700000000040) a_record] ]}.
Proof.
  rewrite (lookup_v4_success_extends_override SampleIP.isIP overridden
             (caller 1 (Only IPV4) false) 1700000000000 ∅ [a_record]
             1700000000040).
  - vm_compute. reflexivity.
  - vm_compute. reflexivity.
  - reflexivity.
  - vm_compute. reflexivity.
  - vm_compute. reflexivity.
Defined.

Lemma lookup_v6_failure_is_surfaced_witness :
  settled
    (run SampleIP.isIP
       [ELookup (caller 1 (Only IPV6) true) 1700000000000;
        EResolve6 1 (inr servfail_aaaa) 1700000000040]
       overridden)
  = [(1%nat, Failed {| e_id := 0; e_data := servfail_aaaa |})].
Proof.
  refine (proj1 (lookup_v6_failure_is_surfaced SampleIP.isIP overridden
                   (caller 1 (Only IPV6) true) 1700000000000 ∅ servfail_aaaa
                   1700000000040 _ _ _ _ _)).
  - vm_compute. reflexivity.
  - reflexivity.
  - vm_compute. reflexivity.
  - vm_compute. reflexivity.
  - left. discriminate.
Defined.

Lemma lookup_any_v6_failure_is_dropped_witness :
  settled
    (run SampleIP.isIP
       [ELookup (caller 1 Unspec true) 1700000000000;
        EResolve4 1 (inl [a_record]) 1700000000040;
        EResolve6 1 (inr enodata_aaaa) 1700000000080]
       overridden)
  = [(1%nat,
      Fulfilled
        (Addresses [{| ai_address := "203.0.113.5"; ai_family := IPV4 |};
                    {| ai_address := "198.51.100.7"; ai_family := IPV4 |}]))].
Proof.
  destruct (lookup_any_v6_failure_is_dropped SampleIP.isIP overridden
              (caller 1 Unspec true) 1700000000000 ∅ [a_record]
              1700000000040 enodata_aaaa 1700000000080)
    as ((s & Hs & Hall & _) & _).
  - vm_compute. reflexivity.
  - reflexivity.
  - vm_compute. reflexivity.
  - vm_compute. reflexivity.
  - rewrite (Hall eq_refl) in Hs. exact Hs.
Defined.

(** One address asked for, nothing in the override table and an empty A
    answer: the promise is rejected. *)
Example lookup_any_nothing_found :
  settled
    (run SampleIP.isIP
       [ELookup (caller 1 Unspec false) 1700000000000;
        EHosts 1 (inl ∅);
        EResolve4 1 (inl []) 1700000000040;
        EResolve6 1 (inr enodata_aaaa) 1700000000080]
       loaded)
  = [(1%nat,
      Failed
        {| e_id := 1;
           e_data :=
             plain_error TypeErrorC
               "Cannot read properties of undefined (reading 'address')" |})].
Proof. vm_compute. reflexivity. Qed.

Lemma run_literal_free_witness :
  literal_free SampleIP.isIP
    (run SampleIP.isIP
       [ELookup (caller 1 Unspec true) 1700000000000;
        EHosts 1 (inl ∅);
        EResolve4 1 (inl [a_record]) 1700000000040]
       loaded).
Proof.
  apply (run_literal_free SampleIP.isIP). apply loaded_literal_free.
Defined.

Lemma install_once_witness :
  install
    {| createConnection := Some (Patched (Only IPV4));
       saved := Some (Native 1); constructor_name := "Agent";
       proxy := ProxyOther |} (Only IPV6)
  = inl {| createConnection := Some (Patched (Only IPV4));
           saved := Some (Native 1); constructor_name := "Agent";
           proxy := ProxyOther |}.
Proof.
  apply (install_once plain_agent (Only IPV4) (Only IPV6)). reflexivity.
Defined.

Lemma install_refuses_witness :
  ∃ agent1, install plain_agent Unspec = inl agent1.
Proof.
  apply (proj2 (install_refuses plain_agent Unspec)). eexists. reflexivity.
Defined.

Lemma install_then_connect_witness :
  connect
    {| createConnection := Some (Patched (Only IPV4));
       saved := Some (Native 1); constructor_name := "Agent";
       proxy := ProxyOther |} bare_options
  = Some (Native 1,
          {| o_lookup := BetterLookup (Only IPV4);
             o_family := Some Unspec |})
  ∧ installed_family (Only IPV4) bare_options = Unspec.
Proof.
  destruct (install_then_connect plain_agent (Only IPV4) (Native 1)
              {| createConnection := Some (Patched (Only IPV4));
                 saved := Some (Native 1); constructor_name := "Agent";
                 proxy := ProxyOther |} bare_options eq_refl eq_refl eq_refl)
    as (H1 & _ & _ & H4 & _).
  split; [exact H1|]. exact (H4 Unspec eq_refl).
Defined.

(** ** A family-6 fetch and the cache *)

Section FetchV6.

Variable isIP : string -> option Family.

(** The work of a family-6 call when its AAAA query succeeds. *)
Lemma resume_AAAA_returns records now6 w m :
  w_family w = Only IPV6 → w_err6 w = None → ref_ok w m →
  let v6 := map (stamp IPV6 (timestamp now6)) records in
  ∃ m',
    resume_AAAA (inl records) now6 w m = (Returned (deref w m ++ v6), m')
    ∧ Cache m' = cache_write_v6 (w_hostname w) v6 (Cache m)
    ∧ next_id m' = next_id m ∧ queries m' = queries m.
Proof.
  intros Hf H6 Hok v6. unfold resume_AAAA. fold v6.
  destruct (push_spec v6 w m Hok)
    as (Hd & _ & Hc & Hn & Hq & Hh & Hf' & H4' & H6' & _).
  destruct (push v6 w m) as [w' m1]. cbn [fst snd] in *.
  unfold conclude. rewrite H6', H6, Hf', Hf.
  eexists. split.
  - rewrite <- Hd. unfold deref. destruct (w_err4 w'); reflexivity.
  - cbn. by rewrite Hh, Hc.
Qed.

(** X24. A family-6 call that misses the cache and leads, when its AAAA
    query succeeds: the promise is fulfilled from the IPv6 records of
    the override table for the host followed by the AAAA records. The
    records are stored in the cache only when the host has no entry
    there; when it has one, the cache is left exactly as it was, so the
    next family-6 call misses the cache again. *)
Theorem lookup_v6_success σ c now table records now6 :
  isIP (c_hostname c) = None →
  c_family c = Only IPV6 →
  cache_probe (c_hostname c) (c_family c) (timestamp now) (Cache (mem σ))
  = None →
  leads c now σ →
  let σ2 :=
    run isIP
      (ELookup c now
       :: hosts_arrival σ (c_id c) table
       ++ [EResolve6 (c_id c) (inl records) now6]) σ in
  let v6 := map (stamp IPV6 (timestamp now6)) records in
  let found :=
    List.filter (has_family IPV6)
      (entries (table_seen σ table) (c_hostname c)) ++ v6 in
  (∃ s, settled σ2 = settled σ ++ [(c_id c, s)]
        ∧ (c_all c = true → s = Fulfilled (Addresses (map project found)))
        ∧ (c_all c = false → ∀ a rest,
             found = a :: rest → s = Fulfilled (Address (address a))))
  ∧ Cache (mem σ2)
    = match Cache (mem σ) !! c_hostname c with
      | Some _ => Cache (mem σ)
      | None => <[c_hostname c := v6]> (Cache (mem σ))
      end
  ∧ (∀ later, is_Some (Cache (mem σ) !! c_hostname c) →
       cache_probe (c_hostname c) (Only IPV6) later (Cache (mem σ2))
       = cache_probe (c_hostname c) (Only IPV6) later (Cache (mem σ)))
  ∧ queries (mem σ2)
    = queries (mem σ) ++ hosts_calls σ ++ [Resolve6 (c_hostname c)].
Proof.
  intros Hip Hf Hp Hl σ2 v6 found.
  destruct (lookup_reaches_query isIP σ c now table Hip Hp Hl)
    as (σ1 & t1 & E1 & Hw & Hm & Hs & Hi & Ht & Hc).
  rewrite Hf in Hw, Hm. cbn in Hw, Hm.
  match type of Hw with _ = <[_ := (_, _, ?w)]> _ => set (w1 := w) in * end.
  destruct (resume_AAAA_returns records now6 w1 (mem σ1) eq_refl eq_refl)
    as (m2 & Er & Hc2 & Hn2 & Hq2).
  { rewrite Hm. apply ref_ok_result_ref. }
  fold v6 in Er, Hc2.
  assert (Hd : deref w1 (mem σ1)
               = entries (table_seen σ table) (c_hostname c)).
  { rewrite Hm. apply deref_result_ref. }
  rewrite Hd in Er.
  set (all := entries (table_seen σ table) (c_hostname c) ++ v6) in *.
  assert (E2 : σ2 = advance c false (progress_of (inl all), m2) σ1).
  { subst σ2. rewrite app_comm_cons, run_snoc, E1. cbn [step].
    rewrite Hw, lookup_insert_eq. cbn [w_phase w1]. by rewrite Er. }
  clearbody σ2. subst σ2.
  destruct (advance_finished c (inl all) m2 σ1 t1 Ht) as (Hs2 & Hm2 & _).
  cbn [Throttle.locals_of Throttle.verdict truthy fst snd deliver]
    in Hs2, Hm2.
  destruct (shape_project c all m2) as [Hall Hone].
  rewrite Hf in Hall, Hone.
  change (wanted (Only IPV6)) with (has_family IPV6) in Hall, Hone.
  unfold all in Hall, Hone.
  rewrite List.filter_app, (filter_has_family_all IPV6 v6) in Hall, Hone
    by apply stamp_family.
  fold found in Hall, Hone. fold all in Hall, Hone.
  destruct (shape_mem c (map project all) m2) as (Hsc & _ & Hsq).
  assert (HC : Cache m2
               = match Cache (mem σ) !! c_hostname c with
                 | Some _ => Cache (mem σ)
                 | None => <[c_hostname c := v6]> (Cache (mem σ))
                 end).
  { rewrite Hc2, Hm. unfold cache_write_v6. cbn.
    by destruct (Cache (mem σ) !! c_hostname c). }
  rewrite Hs2, !Hm2, Hsc, Hsq, Hs. split; [|split; [|split]].
  - eexists. split; [reflexivity|]. split.
    + intros Ha. by rewrite (Hall Ha).
    + intros Ha a rest Hfound. by rewrite (Hone Ha a rest Hfound).
  - exact HC.
  - intros later [slot Hslot]. rewrite HC. by rewrite Hslot.
  - by rewrite Hq2, Hm.
Qed.

End FetchV6.

Lemma lookup_v6_success_witness :
  Cache
    (mem (run SampleIP.isIP
            [ELookup (caller 1 (Only IPV6) true) 1700000100000;
             EResolve6 1 (inl [{| rr_address := "2001:db8::2";
                                  rr_ttl := 300 |}]) 1700000100200]
            stale6))
  = Cache (mem stale6).
Proof.
  destruct (lookup_v6_success SampleIP.isIP stale6
              (caller 1 (Only IPV6) true) 1700000100000 ∅
              [{| rr_address := "2001:db8::2"; rr_ttl := 300 |}]
              1700000100200) as (_ & HC & _).
  - vm_compute. reflexivity.
  - reflexivity.
  - vm_compute. reflexivity.
  - vm_compute. reflexivity.
  - etransitivity; [exact HC|]. vm_compute. reflexivity.
Defined.

(** ** One flight per key *)

Section SingleFlight.

Variable isIP : string -> option Family.

















End SingleFlight.


(** The same three calls, as they are answered. *)
Example three_calls_one_flight :
  let σ :=
    run SampleIP.isIP
      [ELookup (caller 1 (Only IPV4) true) 1700000000000;
       ELookup (caller 2 (Only IPV4) true) 1700000000001;
       EHosts 1 (inl ∅);
       ELookup (caller 3 (Only IPV4) true) 1700000000500;
       EResolve4 1 (inl [a_record]) 1700000000540;
       EImmediate]
      loaded in
  queries (mem σ) = [CallHostsThrottle; Resolve4 host]
  ∧ settled σ
    = [(1%nat, Fulfilled (Addresses [{| ai_address := "198.51.100.7";
                                        ai_family := IPV4 |}]));
       (2%nat, Fulfilled (Addresses [{| ai_address := "198.51.100.7";
                                        ai_family := IPV4 |}]));
       (3%nat, Fulfilled (Addresses [{| ai_address := "198.51.100.7";
                                        ai_family := IPV4 |}]))].
Proof. vm_compute. split; reflexivity. Qed.
